(** * Tax sale states: extraction and workbook synthesis

    A shallow embedding of [src/tax_sale_states.py]: the theme patch and
    the container repair of [WorkbookController], the sheet that
    [create_workbook] builds, and the record extraction of
    [TaxSaleStates].

    Conventions.
    - A Python [str] is a [string]; every character stands for one code
      point below 256.
    - A Python [dict] is an insertion-ordered association list
      (module [PyDict]): assigning to a present key keeps its position.
    - Code that can raise returns a [result]; the exception is a value.
    - Third-party engines (the HTML tree, the sheet, the archive) are
      modelled by the part of their behaviour the source relies on; each
      such definition says so. *)

From Stdlib Require Import List Arith NArith Lia Bool Ascii String.
From Stdlib Require Import DecimalString Permutation.
Import ListNotations.

Local Open Scope list_scope.
Local Open Scope string_scope.

(** ** Exceptions *)

Inductive exn : Type :=
| IndexError
| AttributeError
| KeyError
| ValueError
| IllegalCharacterError
| RuntimeError
| NotImplementedError
| BadZipFile
| ParserRejectedMarkup.

Inductive result (A : Type) : Type :=
| Ok (a : A)
| Raise (e : exn).

Arguments Ok {A} a.
Arguments Raise {A} e.

Definition bind {A B : Type} (m : result A) (k : A -> result B) : result B :=
  match m with
  | Ok a => k a
  | Raise e => Raise e
  end.

Notation "x <- m ;; k" := (bind m (fun x => k))
  (at level 61, m at next level, right associativity).

(** ** Python strings *)

Module PyStr.

Definition dquote : string := String "034"%char EmptyString.

Fixpoint drop (n : nat) (s : string) : string :=
  match n, s with
  | O, _ => s
  | S _, EmptyString => EmptyString
  | S k, String _ rest => drop k rest
  end.

Fixpoint has_char (a : ascii) (s : string) : bool :=
  match s with
  | EmptyString => false
  | String c rest => Ascii.eqb c a || has_char a rest
  end.

(** [str.replace(old, new)] for a non-empty [old], as at every call
    site of the source: a scan from the left that, at an occurrence of
    [old], emits [new] and skips the occurrence. [skip] counts the
    characters of the current occurrence still to pass. *)
Fixpoint replace_from (old new : string) (skip : nat) (s : string) : string :=
  match s with
  | EmptyString => EmptyString
  | String c rest =>
      match skip with
      | S k => replace_from old new k rest
      | O =>
          if prefix old s
          then new ++ replace_from old new (String.length old - 1) rest
          else String c (replace_from old new 0 rest)
      end
  end.

Definition replace (old new s : string) : string := replace_from old new 0 s.

(** Whitespace of [str.strip()] among the code points below 256:
    0x09-0x0D, 0x1C-0x20, 0x85 and 0xA0. *)
Definition is_space (c : ascii) : bool :=
  let n := nat_of_ascii c in
  (((9 <=? n) && (n <=? 13)) || ((28 <=? n) && (n <=? 32))
   || (n =? 133) || (n =? 160))%nat.

Fixpoint lstrip_by (p : ascii -> bool) (s : string) : string :=
  match s with
  | EmptyString => EmptyString
  | String c rest => if p c then lstrip_by p rest else s
  end.

Fixpoint rstrip_by (p : ascii -> bool) (s : string) : string :=
  match s with
  | EmptyString => EmptyString
  | String c rest =>
      match rstrip_by p rest with
      | EmptyString => if p c then EmptyString else String c EmptyString
      | kept => String c kept
      end
  end.

Definition lstrip (s : string) : string := lstrip_by is_space s.
Definition rstrip (s : string) : string := rstrip_by is_space s.
Definition strip (s : string) : string := lstrip (rstrip s).

(** [s.rstrip(chars)] with a one-character [chars]. *)
Definition rstrip_char (a : ascii) (s : string) : string :=
  rstrip_by (Ascii.eqb a) s.

Definition removeprefix (p s : string) : string :=
  if prefix p s then drop (String.length p) s else s.

(** [s[:n]] *)
Fixpoint take (n : N) (s : string) : string :=
  match s with
  | EmptyString => EmptyString
  | String c rest =>
      if (n =? 0)%N then EmptyString else String c (take (N.pred n) rest)
  end.

(** [s in l] on a list of strings. *)
Definition str_in (s : string) (l : list string) : bool :=
  existsb (String.eqb s) l.

(** [str(n)] for a non-negative integer. *)
Definition of_nat (n : nat) : string := NilEmpty.string_of_uint (Nat.to_uint n).

End PyStr.

(** ** Python dictionaries *)

Module PyDict.

Section Dict.
Context {K V : Type}.
Variable eqb : K -> K -> bool.

Definition dict : Type := list (K * V).

Fixpoint get (k : K) (d : dict) : option V :=
  match d with
  | [] => None
  | (k', v) :: rest => if eqb k k' then Some v else get k rest
  end.

(** [k in d] *)
Definition mem (k : K) (d : dict) : bool :=
  match get k d with
  | Some _ => true
  | None => false
  end.

(** [d[k] = v]: a present key keeps its place, a new one goes last. *)
Fixpoint set (k : K) (v : V) (d : dict) : dict :=
  match d with
  | [] => [(k, v)]
  | (k', v') :: rest =>
      if eqb k k' then (k', v) :: rest else (k', v') :: set k v rest
  end.

Definition keys (d : dict) : list K := map fst d.
Definition values (d : dict) : list V := map snd d.

(** The items of [e] assigned into [d] in order, as a dict display
    [{..., **e, ...}] does. *)
Definition update (d e : dict) : dict :=
  fold_left (fun acc kv => set (fst kv) (snd kv) acc) e d.

End Dict.

End PyDict.

Definition str_dict (V : Type) : Type := @PyDict.dict string V.

(** ** WorkbookController: the theme patch *)

Module Theme.

(** The [color] table of [update_theme], in its insertion order. *)
Definition color : list (string * string) :=
  [ ("1F497D", "44546A");
    ("EEECE1", "E7E6E6");
    ("4F81BD", "5B9BD5");
    ("C0504D", "ED7D31");
    ("9BBB59", "A5A5A5");
    ("8064A2", "FFC000");
    ("4BACC6", "4472C4");
    ("F79646", "70AD47");
    ("0000FF", "0563C1");
    ("800080", "954F72") ].

(** The attribute text [val="HEX"]. *)
Definition val_attr (hex : string) : string :=
  "val=" ++ PyStr.dquote ++ hex ++ PyStr.dquote.

(** The loop of [update_theme] over [color.items()]. *)
Definition patch_xml (xml : string) : string :=
  fold_left
    (fun xml kv => PyStr.replace (val_attr (fst kv)) (val_attr (snd kv)) xml)
    color xml.

(** The state the patch lives in: the two module attributes
    [theme.theme_xml] and [excel.theme_xml], the class attribute
    [was_theme_updated], and [patch_runs], a counter of the executions
    of [update_theme]'s body that the source does not have and that
    only the statements below read. *)
Record process : Type := {
  theme_xml : string;
  excel_theme_xml : string;
  was_theme_updated : bool;
  patch_runs : nat
}.

(** A fresh process: the engine's template in both attributes (taken
    as a parameter, the template is the engine's), the flag unset. *)
Definition start (template : string) : process :=
  {| theme_xml := template;
     excel_theme_xml := template;
     was_theme_updated := false;
     patch_runs := 0 |}.

Definition update_theme (p : process) : process :=
  let xml := patch_xml (theme_xml p) in
  {| theme_xml := xml;
     excel_theme_xml := xml;
     was_theme_updated := was_theme_updated p;
     patch_runs := S (patch_runs p) |}.

(** [WorkbookController.__init__] *)
Definition init (p : process) : process :=
  if negb (was_theme_updated p)
  then
    let p' := update_theme p in
    {| theme_xml := theme_xml p';
       excel_theme_xml := excel_theme_xml p';
       was_theme_updated := true;
       patch_runs := patch_runs p' |}
  else p.

(** [n] controllers constructed one after the other. *)
Fixpoint construct (n : nat) (p : process) : process :=
  match n with
  | O => p
  | S k => construct k (init p)
  end.

Definition themes (p : process) : string * string :=
  (theme_xml p, excel_theme_xml p).

End Theme.

(** ** WorkbookController: the container repair *)

Module Zip.

(** What keeps a stored entry from being opened and read: it is
    encrypted, its compression method is not supported, or its stored
    bytes are damaged. *)
Inductive fault : Type :=
| Encrypted
| Unsupported
| Damaged.

(** An archive as the source reads it: its entries in stored order;
    two entries may carry the same name. *)
Record entry : Type := {
  name : string;
  data : list Byte.byte;
  unreadable : option fault
}.

Definition archive : Type := list entry.

Definition namelist (z : archive) : list string := map name z.

(** [ZipFile.open(name)] followed by [read()]: the archive's name table
    keeps, for a name stored twice, the entry read last; an absent name
    is a [KeyError]; an entry that cannot be read raises the exception
    of its fault. *)
Definition open (n : string) (z : archive) : result entry :=
  match find (fun e => String.eqb (name e) n) (rev z) with
  | Some e =>
      match unreadable e with
      | None => Ok e
      | Some Encrypted => Raise RuntimeError
      | Some Unsupported => Raise NotImplementedError
      | Some Damaged => Raise BadZipFile
      end
  | None => Raise KeyError
  end.

Definition CONTENT_TYPES_XML_FILE_NAME : string := "[Content_Types].xml".
Definition XL_FOLDER_NAME : string := "xl".
Definition WORKBOOK_XML_FILE_NAME : string := "workbook.xml".
Definition STYLES_XML_FILE_NAME : string := "styles.xml".

Definition FIRST_NAMES : list string :=
  [ CONTENT_TYPES_XML_FILE_NAME;
    XL_FOLDER_NAME ++ "/" ++ WORKBOOK_XML_FILE_NAME;
    XL_FOLDER_NAME ++ "/" ++ STYLES_XML_FILE_NAME ].

(** The copy loop: [writestr] appends an entry, which can be read, to
    the new archive; a [KeyError] from [open] is passed over, any other
    exception leaves the loop. *)
Fixpoint copy_entries (z : archive) (ordered_names : list string)
    (buffer : archive) : result archive :=
  match ordered_names with
  | [] => Ok buffer
  | n :: rest =>
      match open n z with
      | Ok file =>
          copy_entries z rest
            (buffer ++ [ {| name := name file; data := data file;
                            unreadable := None |} ])%list
      | Raise KeyError => copy_entries z rest buffer
      | Raise e => Raise e
      end
  end.

Definition fix_workbook_mime_type (z : archive) : result archive :=
  let names := namelist z in
  let remaining_names := filter (fun n => negb (PyStr.str_in n FIRST_NAMES)) names in
  let ordered_names := (FIRST_NAMES ++ remaining_names)%list in
  copy_entries z ordered_names [].

End Zip.

(** ** WorkbookController: the sheet *)

Module Sheet.

(** A [datetime.datetime] without microseconds and without a time
    zone. *)
Record datetime : Type := {
  year : nat; month : nat; day : nat;
  hour : nat; minute : nat; second : nat
}.

Fixpoint zeros (n : nat) : string :=
  match n with
  | O => EmptyString
  | S k => String "0" (zeros k)
  end.

(** [str(n).zfill(width)] *)
Definition zfill (width n : nat) : string :=
  let digits := PyStr.of_nat n in
  zeros (width - String.length digits) ++ digits.

(** [str(d)] for such a datetime: [YYYY-MM-DD HH:MM:SS]. *)
Definition str_datetime (d : datetime) : string :=
  zfill 4 (year d) ++ "-" ++ zfill 2 (month d) ++ "-" ++ zfill 2 (day d)
  ++ " " ++ zfill 2 (hour d) ++ ":" ++ zfill 2 (minute d) ++ ":"
  ++ zfill 2 (second d).

(** The values a cell or a record field holds. *)
Inductive pyvalue : Type :=
| PyNone
| PyStr (s : string)
| PyDatetime (d : datetime).

Definition isinstance_datetime (v : pyvalue) : bool :=
  match v with
  | PyDatetime _ => true
  | _ => false
  end.

Record cell : Type := {
  number_format : string;
  value : pyvalue;
  data_type : string
}.

Definition coord : Type := (nat * nat)%type.

Definition coord_eqb (a b : coord) : bool :=
  ((fst a =? fst b) && (snd a =? snd b))%nat.

(** The engine's worksheet: [_cells], keyed by (row, column), and
    [_current_row]. *)
Record worksheet : Type := {
  cells : @PyDict.dict coord cell;
  current_row : nat
}.

Definition empty_sheet : worksheet := {| cells := []; current_row := 0 |}.

Definition FORMAT_GENERAL : string := "General".
Definition FORMAT_TEXT : string := "@".
Definition ISO_8601_NUMBER_FORMAT : string := "yyyy-mm-ddThh:MM:ss".

Definition MAX_ROW : N := 1048576.
Definition MAX_COLUMN : N := 18278.

(** The greatest length of a cell's text. *)
Definition MAX_TEXT : N := 32767.

(** [ILLEGAL_CHARACTERS_RE]: the control characters 0 to 8, 11, 12 and
    14 to 31. *)
Definition illegal_character (c : ascii) : bool :=
  let n := nat_of_ascii c in
  ((n <=? 8) || ((11 <=? n) && (n <=? 12)) || ((14 <=? n) && (n <=? 31)))%nat.

Fixpoint has_illegal_character (s : string) : bool :=
  match s with
  | EmptyString => false
  | String c rest => illegal_character c || has_illegal_character rest
  end.

(** [Cell.check_string]: the text is cut to [MAX_TEXT] characters, and
    what is left must be free of illegal characters. *)
Definition check_string (value : string) : result string :=
  let value := PyStr.take MAX_TEXT value in
  if has_illegal_character value then Raise IllegalCharacterError else Ok value.

Definition ERROR_CODES : list string :=
  ["#NULL!"; "#DIV/0!"; "#VALUE!"; "#REF!"; "#NAME?"; "#NUM!"; "#N/A"].

(** [Cell._bind_value], the setter of [cell.value]: the value the cell
    keeps and the data type the engine infers for it. *)
Definition bind_value (v : pyvalue) : result (pyvalue * string) :=
  match v with
  | PyNone => Ok (PyNone, "n")
  | PyStr s =>
      text <- check_string s;;
      Ok (PyStr text,
          if ((1 <? String.length text)%nat && prefix "=" text) then "f"
          else if PyStr.str_in text ERROR_CODES then "e"
          else "s")
  | PyDatetime d => Ok (PyDatetime d, "d")
  end.

(** [sheet.cell(row=r, column=c)]: the cell is created, empty, when the
    sheet has none at the coordinate; rows and columns start at 1 and
    rows end at [MAX_ROW]. *)
Definition cell_at (r c : nat) (ws : worksheet) : result worksheet :=
  if ((r <? 1) || (c <? 1))%nat then Raise ValueError
  else if negb ((0 <? N.of_nat r) && (N.of_nat r <? MAX_ROW + 1))%N
  then Raise ValueError
  else if PyDict.mem coord_eqb (r, c) (cells ws) then Ok ws
  else
    Ok {| cells :=
            PyDict.set coord_eqb (r, c)
              {| number_format := FORMAT_GENERAL;
                 value := PyNone;
                 data_type := "n" |}
              (cells ws);
          current_row := Nat.max r (current_row ws) |}.

(** The three assignments [cell.number_format], [cell.value] and
    [cell.data_type] on the cell at a coordinate. The setter of the
    value can raise; on a datetime it leaves a number format that is a
    date format, as the one of the source is, in place. [data_type] is
    assigned last and overrides the type the engine inferred. *)
Definition assign (r c : nat) (fmt : string) (v : pyvalue) (dt : string)
    (ws : worksheet) : result worksheet :=
  bound <- bind_value v;;
  Ok {| cells :=
          PyDict.set coord_eqb (r, c)
            {| number_format := fmt; value := fst bound; data_type := dt |}
            (cells ws);
        current_row := current_row ws |}.

(** [Cell(sheet, row, column, value=content)], the cell that [append]
    builds from a string. *)
Definition new_cell (content : string) : result cell :=
  bound <- bind_value (PyStr content);;
  Ok {| number_format := FORMAT_GENERAL;
        value := fst bound;
        data_type := snd bound |}.

Fixpoint append_cells (row_idx col_idx : nat) (contents : list string)
    (cs : @PyDict.dict coord cell) : result (@PyDict.dict coord cell) :=
  match contents with
  | [] => Ok cs
  | content :: rest =>
      cl <- new_cell content;;
      append_cells row_idx (S col_idx) rest
        (PyDict.set coord_eqb (row_idx, col_idx) cl cs)
  end.

(** [sheet.append(row)] for a list of strings: the row goes below
    [_current_row], columns from 1. *)
Definition append (row : list string) (ws : worksheet) : result worksheet :=
  let row_idx := current_row ws + 1 in
  cs <- append_cells row_idx 1 row (cells ws);;
  Ok {| cells := cs; current_row := row_idx |}.

Definition max_row (ws : worksheet) : nat :=
  match cells ws with
  | [] => 1
  | _ => list_max (map (fun kv => fst (fst kv)) (cells ws))
  end.

Definition max_column (ws : worksheet) : nat :=
  match cells ws with
  | [] => 1
  | _ => list_max (map (fun kv => snd (fst kv)) (cells ws))
  end.

(** The loop of [get_column_letter]: [divmod] by 26 with a borrow on an
    exact division; the letters come out last first. [fuel] bounds the
    iterations, [col_idx] itself is enough. *)
Fixpoint letters_loop (fuel col_idx : nat) (letters : list ascii) : list ascii :=
  match fuel with
  | O => letters
  | S f =>
      if (col_idx =? 0)%nat then letters
      else
        let q := col_idx / 26 in
        let remainder := col_idx mod 26 in
        if (remainder =? 0)%nat
        then letters_loop f (q - 1) (letters ++ [ascii_of_nat (26 + 64)])%list
        else letters_loop f q (letters ++ [ascii_of_nat (remainder + 64)])%list
  end.

Definition get_column_letter (col_idx : nat) : result string :=
  if negb ((1 <=? N.of_nat col_idx) && (N.of_nat col_idx <=? MAX_COLUMN))%N
  then Raise ValueError
  else Ok (string_of_list_ascii (rev (letters_loop col_idx col_idx []))).

(** [value_of] of [autosize_columns]. *)
Definition value_of (v : pyvalue) : string :=
  match v with
  | PyNone => EmptyString
  | PyStr s => s
  | PyDatetime d => str_datetime d
  end.

(** One column of [worksheet.columns]: the cells of the rows [rows],
    each asked for through [sheet.cell], which makes the cells the
    sheet lacks; the lengths of their texts come back. *)
Fixpoint column_lengths (rows : list nat) (c : nat) (ws : worksheet)
    : result (worksheet * list nat) :=
  match rows with
  | [] => Ok (ws, [])
  | r :: rest =>
      ws1 <- cell_at r c ws;;
      let v :=
        match PyDict.get coord_eqb (r, c) (cells ws1) with
        | Some cl => value cl
        | None => PyNone
        end in
      walked <- column_lengths rest c ws1;;
      Ok (fst walked, String.length (value_of v) :: snd walked)
  end.

(** The loop of [autosize_columns] over the columns [columns]. *)
Fixpoint autosize_from (columns rows : list nat) (ws : worksheet)
    (widths : str_dict nat) : result (worksheet * str_dict nat) :=
  match columns with
  | [] => Ok (ws, widths)
  | c :: rest =>
      walked <- column_lengths rows c ws;;
      let length := list_max (snd walked) in
      column_letter <- get_column_letter c;;
      autosize_from rest rows (fst walked)
        (PyDict.set String.eqb column_letter length widths)
  end.

(** [autosize_columns(worksheet)]: [worksheet.columns] is empty on a
    sheet without rows and otherwise runs over the columns 1 to
    [max_column], each with the rows 1 to [max_row]; the widths are
    kept by column letter. *)
Definition autosize_columns (ws : worksheet) : result (worksheet * str_dict nat) :=
  if (current_row ws =? 0)%nat then Ok (ws, [])
  else autosize_from (seq 1 (max_column ws)) (seq 1 (max_row ws)) ws [].

End Sheet.

(** ** WorkbookController.create_workbook *)

Module Workbook.

Import Sheet.

Record table_column : Type := {
  id : nat;
  column_name : string;
  totalsRowLabel : option string;
  totalsRowFunction : option string
}.

Record table : Type := {
  displayName : string;
  ref : string;
  autoFilter_ref : string;
  totalsRowShown : bool;
  totalsRowCount : nat;
  tableColumns : list table_column
}.

Record workbook : Type := {
  sheet : worksheet;
  column_widths : str_dict nat;
  tables : list table;
  activeCell : string;
  sqref : string
}.

(** [l[i] = v] for [0 <= i]. *)
Fixpoint list_assign {A : Type} (i : nat) (v : A) (l : list A) : result (list A) :=
  match l, i with
  | [], _ => Raise IndexError
  | _ :: rest, O => Ok (v :: rest)
  | x :: rest, S j => rest' <- list_assign j v rest;; Ok (x :: rest')
  end.

(** [l[-1]] *)
Definition list_last {A : Type} (l : list A) : result A :=
  match rev l with
  | [] => Raise IndexError
  | x :: _ => Ok x
  end.

(** [l[-1] = v] *)
Definition list_assign_last {A : Type} (v : A) (l : list A) : result (list A) :=
  match l with
  | [] => Raise IndexError
  | _ => list_assign (List.length l - 1) v l
  end.

(** [l[i]] then an attribute assignment on the object found there. *)
Fixpoint list_modify {A : Type} (i : nat) (f : A -> A) (l : list A) : result (list A) :=
  match l, i with
  | [], _ => Raise IndexError
  | x :: rest, O => Ok (f x :: rest)
  | x :: rest, S j => rest' <- list_modify j f rest;; Ok (x :: rest')
  end.

Definition list_modify_last {A : Type} (f : A -> A) (l : list A) : result (list A) :=
  match l with
  | [] => Raise IndexError
  | _ => list_modify (List.length l - 1) f l
  end.

(** The inner loop over [enumerate(keys, start=1)], from column [c]. *)
Fixpoint fill_row (keys : list string) (r c : nat) (row : str_dict pyvalue)
    (ws : worksheet) : result worksheet :=
  match keys with
  | [] => Ok ws
  | key :: rest =>
      let value :=
        if PyDict.mem String.eqb key row
        then match PyDict.get String.eqb key row with
             | Some v => v
             | None => PyStr ""
             end
        else PyStr "" in
      ws1 <- cell_at r c ws;;
      let dated := isinstance_datetime value in
      let cell_number_format := if dated then ISO_8601_NUMBER_FORMAT else FORMAT_TEXT in
      let cell_data_type := if dated then "d" else "s" in
      ws2 <- assign r c cell_number_format value cell_data_type ws1;;
      fill_row rest r (S c) row ws2
  end.

(** The outer loop over [enumerate(rows, start=1)], from row [r]. *)
Fixpoint fill_rows (keys : list string) (rows : list (str_dict pyvalue)) (r : nat)
    (ws : worksheet) : result worksheet :=
  match rows with
  | [] => Ok ws
  | row :: rest =>
      ws1 <- fill_row keys r 1 row ws;;
      fill_rows keys rest (S r) ws1
  end.

Definition subtotal_formula (table_name last_title : string) : string :=
  "=SUBTOTAL(103," ++ table_name ++ "[" ++ last_title ++ "])".

(** Lines 186-188: the row of blanks, its first and then its last
    cell assigned. *)
Definition total_row (keys titles : list string) (table_name : string)
    : result (list string) :=
  let blank := repeat "" (List.length keys) in
  labelled <- list_assign 0 "Total" blank;;
  last_title <- list_last titles;;
  list_assign_last (subtotal_formula table_name last_title) labelled.

Fixpoint enumerate_columns (h : nat) (titles : list string) : list table_column :=
  match titles with
  | [] => []
  | header :: rest =>
      {| id := h; column_name := header;
         totalsRowLabel := None; totalsRowFunction := None |}
      :: enumerate_columns (S h) rest
  end.

Definition set_label (label : string) (tc : table_column) : table_column :=
  {| id := id tc; column_name := column_name tc;
     totalsRowLabel := Some label;
     totalsRowFunction := totalsRowFunction tc |}.

Definition set_function (fn : string) (tc : table_column) : table_column :=
  {| id := id tc; column_name := column_name tc;
     totalsRowLabel := totalsRowLabel tc;
     totalsRowFunction := Some fn |}.

(** [create_workbook]. The header row is [key_title] itself, read as a
    record. The workbook title, the sheet title and the table style
    are written to parts of the workbook that this model leaves out;
    [workbook_title] and [sheet_title] are taken at their defaults,
    which the engine accepts. *)
Definition create_workbook (key_title : str_dict string)
    (data : list (str_dict pyvalue)) (table_name : string) : result workbook :=
  let keys := PyDict.keys key_title in
  let titles := PyDict.values key_title in
  let header : str_dict pyvalue := map (fun kv => (fst kv, PyStr (snd kv))) key_title in
  let rows := header :: data in
  filled <- fill_rows keys rows 1 empty_sheet;;
  total <- total_row keys titles table_name;;
  sheet <- append total filled;;
  let table_columns := enumerate_columns 1 titles in
  table_columns <- list_modify 0 (set_label "Total") table_columns;;
  table_columns <- list_modify_last (set_function "count") table_columns;;
  let max_column := max_column sheet in
  max_column_letter <- get_column_letter max_column;;
  let max_row := max_row sheet in
  let table :=
    {| displayName := table_name;
       ref := "A1:" ++ max_column_letter ++ PyStr.of_nat max_row;
       autoFilter_ref := "A1:" ++ max_column_letter ++ PyStr.of_nat (max_row - 1);
       totalsRowShown := true;
       totalsRowCount := 1;
       tableColumns := table_columns |} in
  sized <- autosize_columns sheet;;
  let active_cell := "A" ++ PyStr.of_nat (max_row + 1) in
  Ok {| sheet := fst sized;
        column_widths := snd sized;
        tables := [table];
        activeCell := active_cell;
        sqref := active_cell |}.

(** The value of the cell at a coordinate, when the sheet has one. *)
Definition value_at (r c : nat) (wb : workbook) : option pyvalue :=
  option_map value (PyDict.get coord_eqb (r, c) (cells (sheet wb))).

Definition table_refs (wb : workbook) : list (string * string) :=
  map (fun t => (ref t, autoFilter_ref t)) (tables wb).

End Workbook.

(** ** The parsed markup *)

Module Html.

(** The tree the HTML parser hands over: text and elements with their
    tag name, their classes and their children. Parsing the markup
    text itself is the parser's and is not modelled. *)
Inductive node : Type :=
| Text (s : string)
| Element (tag : string) (classes : list string) (children : list node).

(** The document: the nodes at the top of the tree. *)
Definition soup : Type := list node.

(** The elements whose strings the parser keeps in a class of their
    own: [get_text] of an element takes the strings of the element's
    own class only, so the text of an ordinary element leaves out the
    strings inside these elements. *)
Definition string_containers : list string :=
  ["rt"; "rp"; "style"; "script"; "template"].

(** The string container that rules the strings right below an element
    [tag] that lies in the container [outer], if in any. *)
Definition container_of (tag : string) (outer : option string) : option string :=
  if PyStr.str_in tag string_containers then Some tag else outer.

Definition same_container (a b : option string) : bool :=
  match a, b with
  | None, None => true
  | Some x, Some y => String.eqb x y
  | _, _ => false
  end.

(** The strings below a node that are of the class [wanted], in
    document order; [current] is the container the node lies in. *)
Fixpoint strings_below (wanted current : option string) (n : node) : string :=
  match n with
  | Text s => if same_container wanted current then s else EmptyString
  | Element tag _ children =>
      String.concat ""
        (map (strings_below wanted (container_of tag current)) children)
  end.

(** [node.get_text()] on a node that lies in no string container: the
    strings of the node's own class below it, in document order. *)
Definition get_text (n : node) : string :=
  match n with
  | Text s => s
  | Element tag _ children =>
      let own := container_of tag None in
      String.concat "" (map (strings_below own own) children)
  end.

(** The elements and texts strictly below a node, in document order. *)
Fixpoint descendants (n : node) : list node :=
  match n with
  | Text _ => []
  | Element _ _ children => flat_map (fun c => c :: descendants c) children
  end.

Definition has_tag (t : string) (n : node) : bool :=
  match n with
  | Text _ => false
  | Element tag _ _ => String.eqb tag t
  end.

(** [node.select(t)] for a type selector [t]. *)
Definition select_tag (t : string) (n : node) : list node :=
  filter (has_tag t) (descendants n).

Definition has_class (c : string) (classes : list string) : bool :=
  existsb (String.eqb c) classes.

(** What a selector sees of an ancestor: its classes and the classes
    of the element sibling just before it, if any. *)
Record ancestor : Type := {
  own_classes : list string;
  previous_classes : option (list string)
}.

(** [select] for a selector given as a test on an element's classes
    and its ancestors, nearest first: the matching elements in
    document order. Text nodes do not count as siblings. *)
Fixpoint select_in (test : list string -> list ancestor -> bool)
    (ancestors : list ancestor) (previous : option (list string))
    (n : node) : list node :=
  match n with
  | Text _ => []
  | Element _ classes children =>
      let below :=
        {| own_classes := classes; previous_classes := previous |} :: ancestors in
      let inner :=
        (fix siblings (previous : option (list string)) (l : list node) : list node :=
           match l with
           | [] => []
           | c :: rest =>
               (select_in test below previous c
                ++ siblings
                     (match c with
                      | Element _ cls _ => Some cls
                      | Text _ => previous
                      end) rest)%list
           end) None children in
      if test classes ancestors then n :: inner else inner
  end.

Fixpoint select_siblings (test : list string -> list ancestor -> bool)
    (previous : option (list string)) (l : list node) : list node :=
  match l with
  | [] => []
  | c :: rest =>
      (select_in test [] previous c
       ++ select_siblings test
            (match c with
             | Element _ cls _ => Some cls
             | Text _ => previous
             end) rest)%list
  end.

Definition select (test : list string -> list ancestor -> bool) (doc : soup)
    : list node :=
  select_siblings test None doc.

(** [.elementor-widget-menu-anchor + .elementor-widget-heading
    .elementor-heading-title] *)
Definition heading_selector (classes : list string) (ancestors : list ancestor) : bool :=
  has_class "elementor-heading-title" classes
  && existsb
       (fun a =>
          has_class "elementor-widget-heading" (own_classes a)
          && match previous_classes a with
             | Some p => has_class "elementor-widget-menu-anchor" p
             | None => false
             end)
       ancestors.

(** [.e-con-inner > .e-child > .e-child]: an ancestor of class
    [e-child] whose parent is of class [e-child] and whose grandparent
    is of class [e-con-inner]. *)
Fixpoint child_chain (ancestors : list ancestor) : bool :=
  match ancestors with
  | a :: rest =>
      match rest with
      | b :: c :: _ =>
          (has_class "e-child" (own_classes a)
           && has_class "e-child" (own_classes b)
           && has_class "e-con-inner" (own_classes c))
          || child_chain rest
      | _ => false
      end
  | [] => false
  end.

(** [.e-con-inner > .e-child > .e-child .elementor-widget-text-editor] *)
Definition table_notes_selector (classes : list string) (ancestors : list ancestor) : bool :=
  has_class "elementor-widget-text-editor" classes && child_chain ancestors.

End Html.

(** ** TaxSaleStates *)

Module TaxSaleStates.

Import Html.

Definition KEY_TITLE : str_dict string :=
  [ ("State", "State");
    ("Type", "Type");
    ("Bidding Process", "Bidding process");
    ("Frequency", "Frequency");
    ("Interest Rate / Penalty", "Interest rate / penalty");
    ("Redemption Period", "Redemption period");
    ("Online Auction", "Online auction");
    ("Over the Counter", "Over the counter");
    ("Statute", "Statute");
    ("Notes", "Notes");
    ("Description", "Description") ].

Definition record : Type := str_dict string.

Section Model.
(** [self.key_title] *)
Variable key_title : str_dict string.

(** [self.titles] *)
Definition titles : list string := PyDict.values key_title.

Definition add_missing_keys (row : record) : record :=
  fold_left
    (fun row title =>
       if negb (PyDict.mem String.eqb title row)
       then PyDict.set String.eqb title "" row
       else row)
    titles row.

(** One turn of the loop of [parse_table]. *)
Definition parse_table_row (result : record) (row : node) : record :=
  let cells := select_tag "td" row in
  if (List.length cells <? 2)%nat then result
  else
    let key :=
      PyStr.rstrip_char ":" (PyStr.strip (get_text (nth 0 cells (Text "")))) in
    let value := PyStr.strip (get_text (nth 1 cells (Text ""))) in
    if ((String.length key <=? 0)%nat && (String.length value <=? 0)%nat) then result
    else
      let title :=
        if PyDict.mem String.eqb key key_title
        then match PyDict.get String.eqb key key_title with
             | Some t => t
             | None => key
             end
        else key in
      PyDict.set String.eqb title value result.

Definition parse_table (table : node) : record :=
  let rows := select_tag "tr" table in
  fold_left parse_table_row rows [].

(** [itertools.zip_longest(it, it)] over one shared iterator: the
    nodes two by two, a last single node with [None]. *)
Fixpoint zip_longest_pairs (l : list node) : list (node * option node) :=
  match l with
  | [] => []
  | table :: rest =>
      match rest with
      | [] => [(table, None)]
      | notes :: rest' => (table, Some notes) :: zip_longest_pairs rest'
      end
  end.

(** The record display of [parse], before [add_missing_keys]. *)
Definition item_display (state : string) (table_items : record)
    (description : string) : record :=
  PyDict.set String.eqb "Description" description
    (PyDict.update String.eqb
       (PyDict.set String.eqb "State" state [])
       table_items).

(** The loop of [parse], from heading index [i]. *)
Fixpoint parse_loop (state_headings : list node)
    (pairs : list (node * option node)) (i : nat) (items : list record)
    : result (list record) :=
  match pairs with
  | [] => Ok items
  | (table, notes) :: rest =>
      heading <- match nth_error state_headings i with
                 | Some h => Ok h
                 | None => Raise IndexError
                 end;;
      let state := PyStr.strip (get_text heading) in
      let table_items := parse_table table in
      notes_node <- match notes with
                    | Some n => Ok n
                    | None => Raise AttributeError
                    end;;
      let description :=
        PyStr.lstrip (PyStr.removeprefix "NOTES:" (PyStr.strip (get_text notes_node))) in
      let item := add_missing_keys (item_display state table_items description) in
      parse_loop state_headings rest (S i) (items ++ [item])%list
  end.

Definition state_headings (doc : soup) : list node :=
  select heading_selector doc.

Definition table_notes (doc : soup) : list node :=
  select table_notes_selector doc.

(** The body of [parse] from the tree on: the lines after line 296. *)
Definition parse (doc : soup) : result (list record) :=
  parse_loop (state_headings doc) (zip_longest_pairs (table_notes doc)) 0 [].

(** [BeautifulSoup(markup, "html.parser")] of line 296: the parser
    hands over the tree of the markup, or raises on markup it rejects.
    Parsing itself is the parser's and is not modelled. *)
Variable html_parser : string -> result soup.

(** [parse] from the markup on. *)
Definition parse_markup (markup : string) : result (list record) :=
  doc <- html_parser markup;;
  parse doc.

End Model.

End TaxSaleStates.

(** ** The table step in the specification's words *)

Module TableSpec.

Import Html TaxSaleStates.

(** A row counts when it has at least two cells; its first two cells. *)
Definition row_cells (row : node) : option (node * node) :=
  match select_tag "td" row with
  | cell1 :: cell2 :: _ => Some (cell1, cell2)
  | _ => None
  end.

(** Cell 1's trimmed text with any trailing colon stripped. *)
Definition raw_key (cell1 : node) : string :=
  PyStr.rstrip_char ":" (PyStr.strip (get_text cell1)).

(** Cell 2's trimmed text. *)
Definition cell_value (cell2 : node) : string := PyStr.strip (get_text cell2).

(** The raw key mapped through the schema, passed through if unmapped. *)
Definition canonical_title (key_title : str_dict string) (key : string) : string :=
  match PyDict.get String.eqb key key_title with
  | Some title => title
  | None => key
  end.

(** The entry of a row, [None] for a skipped row: fewer than two
    cells, or key and value both empty. *)
Definition row_entry (key_title : str_dict string) (row : node)
    : option (string * string) :=
  match row_cells row with
  | Some (cell1, cell2) =>
      if (raw_key cell1 =? "") && (cell_value cell2 =? "") then None
      else Some (canonical_title key_title (raw_key cell1), cell_value cell2)
  | None => None
  end.

Definition table_entries (key_title : str_dict string) (table : node)
    : list (string * string) :=
  flat_map
    (fun row => match row_entry key_title row with
                | Some e => [e]
                | None => []
                end)
    (select_tag "tr" table).

(** The mapping the entries make, a later entry of a title replacing
    the value of an earlier one. *)
Definition spec_parse_table (key_title : str_dict string) (table : node) : record :=
  PyDict.update String.eqb [] (table_entries key_title table).

End TableSpec.

(** ** Notions used in the statements *)

Module Notions.

(** *** Replacement rules *)

(** A list of replacements applied one after the other, every pattern
    opening with the character [a]; a rule is the pair of what follows
    [a] in the old and in the new text. *)
Definition apply_rules (a : ascii) (rs : list (string * string)) (s : string) : string :=
  fold_left
    (fun s r => PyStr.replace (String a (fst r)) (String a (snd r)) s) rs s.

(** All texts of the rules have length [n] and are free of [a]. *)
Definition shaped (a : ascii) (n : nat) (rs : list (string * string)) : Prop :=
  Forall
    (fun r =>
       String.length (fst r) = n /\ String.length (snd r) = n
       /\ PyStr.has_char a (fst r) = false /\ PyStr.has_char a (snd r) = false) rs.

(** No new text is an old one. *)
Definition separated (rs : list (string * string)) : Prop :=
  forall r r', In r rs -> In r' rs -> prefix (fst r') (snd r) = false.

Definition matching (s : string) (r : string * string) : bool := prefix (fst r) s.

(** What follows the [v] of [val="HEX"]. *)
Definition after_v (hex : string) : string :=
  "al=" ++ PyStr.dquote ++ hex ++ PyStr.dquote.

Definition color_rules : list (string * string) :=
  map (fun kv => (after_v (fst kv), after_v (snd kv))) Theme.color.

(** *** Archives *)

(** What the copy loop writes for one name. *)
Definition copied (z : Zip.archive) (n : string) : list Zip.entry :=
  match Zip.open n z with
  | Ok e => [e]
  | Raise _ => []
  end.

(** The input entries stored under a name. *)
Definition named (z : Zip.archive) (n : string) : list Zip.entry :=
  filter (fun e => String.eqb (Zip.name e) n) z.

(** The entries of the input that are not among the first names. *)
Definition others (z : Zip.archive) : Zip.archive :=
  filter (fun e => negb (PyStr.str_in (Zip.name e) Zip.FIRST_NAMES)) z.

(** Every entry of the archive can be opened and read. *)
Definition readable (z : Zip.archive) : Prop :=
  forall e, In e z -> Zip.unreadable e = None.

(** *** Sheets *)

Definition coords (ws : Sheet.worksheet) : list Sheet.coord :=
  PyDict.keys (Sheet.cells ws).

(** [_current_row] is the greatest row that has a cell, 0 without cells. *)
Definition consistent (ws : Sheet.worksheet) : Prop :=
  Sheet.current_row ws = list_max (map fst (coords ws)).

(** What a cell keeps of a value that its setter accepts: of a text,
    the first [MAX_TEXT] characters. *)
Definition kept (v : Sheet.pyvalue) : Sheet.pyvalue :=
  match v with
  | Sheet.PyStr s => Sheet.PyStr (PyStr.take Sheet.MAX_TEXT s)
  | _ => v
  end.

(** The cell that [append] leaves for a string it accepts. *)
Definition appended (content : string) : Sheet.cell :=
  let text := PyStr.take Sheet.MAX_TEXT content in
  {| Sheet.number_format := Sheet.FORMAT_GENERAL;
     Sheet.value := Sheet.PyStr text;
     Sheet.data_type :=
       if ((1 <? String.length text)%nat && prefix "=" text) then "f"
       else if PyStr.str_in text Sheet.ERROR_CODES then "e"
       else "s" |}.

(** *** Records *)

(** The keys of a dictionary that is assigned the keys [l] in order,
    after the keys [seen]: every new key goes last, once. *)
Definition first_seen_from (seen l : list string) : list string :=
  fold_left (fun acc k => if PyStr.str_in k acc then acc else (acc ++ [k])%list) l seen.

Definition first_seen (l : list string) : list string := first_seen_from [] l.

(** The record of one heading, table and notes. *)
Definition item_of (key_title : str_dict string) (heading table notes : Html.node)
    : TaxSaleStates.record :=
  TaxSaleStates.add_missing_keys key_title
    (TaxSaleStates.item_display
       (PyStr.strip (Html.get_text heading))
       (TaxSaleStates.parse_table key_title table)
       (PyStr.lstrip
          (PyStr.removeprefix "NOTES:" (PyStr.strip (Html.get_text notes))))).

(** A pair of [zip_longest] with both sides. *)
Definition paired (p : Html.node * option Html.node) : Prop := snd p <> None.

End Notions.

(** ** Sample inputs *)

Module Samples.

Import Sheet.

(** A schema of five columns and three records for it. *)
Definition five_columns : str_dict string :=
  [ ("State", "State");
    ("Type", "Type");
    ("Bidding process", "Bidding process");
    ("Frequency", "Frequency");
    ("Statute", "Statute") ].

Definition three_records : list (str_dict pyvalue) :=
  [ [("State", PyStr "Alabama"); ("Type", PyStr "Lien"); ("Frequency", PyStr "Annual")];
    [("State", PyStr "Arizona"); ("Type", PyStr "Lien")];
    [("State", PyStr "Alaska"); ("Type", PyStr "Deed"); ("Statute", PyStr "29.45")] ].

(** Markup pieces of the page template. *)
Definition heading_block (state : string) : list Html.node :=
  [ Html.Element "div" ["elementor-element"; "elementor-widget-menu-anchor"] [];
    Html.Element "div" ["elementor-element"; "elementor-widget-heading"]
      [ Html.Element "h2" ["elementor-heading-title"] [Html.Text state] ] ].

Definition td (s : string) : Html.node := Html.Element "td" [] [Html.Text s].
Definition tr (cells : list Html.node) : Html.node := Html.Element "tr" [] cells.

Definition table_widget (rows : list Html.node) : Html.node :=
  Html.Element "div" ["elementor-widget-text-editor"]
    [ Html.Element "table" [] [Html.Element "tbody" [] rows] ].

Definition notes_widget (notes : string) : Html.node :=
  Html.Element "div" ["elementor-widget-text-editor"]
    [ Html.Element "p" [] [Html.Text notes] ].

Definition container (widgets : list Html.node) : Html.node :=
  Html.Element "div" ["e-con"; "e-parent"]
    [ Html.Element "div" ["e-con-inner"]
        [ Html.Element "div" ["e-con"; "e-child"]
            [ Html.Element "div" ["e-con"; "e-child"] widgets ] ] ].

(** A table with a one-cell row, a row of two empty cells and a
    Frequency row. *)
Definition frequency_table : Html.node :=
  Html.Element "table" []
    [ tr [td "Only one cell"];
      tr [td ""; td "  "];
      tr [td "Frequency:"; td " Annual "] ].

(** One heading and no table or notes. *)
Definition heading_only : Html.soup := heading_block "Alabama".

(** One table and its notes under no heading. *)
Definition pair_only : Html.soup :=
  [ container [table_widget [tr [td "Type:"; td "Lien"]]; notes_widget "NOTES: none"] ].

(** One heading, one table, no notes: an odd number of content nodes. *)
Definition odd_content : Html.soup :=
  (heading_block "Alabama"
   ++ [ container [table_widget [tr [td "Type:"; td "Lien"]]] ])%list.

(** Two headings and one pair whose table has a label outside the
    schema and rows out of schema order. *)
Definition two_headings_one_pair : Html.soup :=
  (heading_block " Alabama "
   ++ [ container
          [ table_widget
              [ tr [td "Statute:"; td "40-10-180"];
                tr [td "County fee:"; td "5"];
                tr [td "Bidding Process:"; td "Premium bid"] ];
            notes_widget "NOTES: Sales in May." ] ]
   ++ heading_block "Alaska")%list.

(** The record [parse] makes of [two_headings_one_pair]. *)
Definition alabama_record : TaxSaleStates.record :=
  [ ("State", "Alabama");
    ("Statute", "40-10-180");
    ("County fee", "5");
    ("Bidding process", "Premium bid");
    ("Description", "Sales in May.");
    ("Type", "");
    ("Frequency", "");
    ("Interest rate / penalty", "");
    ("Redemption period", "");
    ("Online auction", "");
    ("Over the counter", "");
    ("Notes", "") ].

(** A schema of one column. *)
Definition one_column : str_dict string := [("State", "State")].

(** An archive that lacks [xl/workbook.xml]. *)
Definition sample_archive : Zip.archive :=
  [ {| Zip.name := "xl/styles.xml"; Zip.data := [Byte.x01]; Zip.unreadable := None |};
    {| Zip.name := "docProps/app.xml"; Zip.data := [Byte.x02; Byte.x03]; Zip.unreadable := None |};
    {| Zip.name := "[Content_Types].xml"; Zip.data := [Byte.x04]; Zip.unreadable := None |};
    {| Zip.name := "xl/worksheets/sheet1.xml"; Zip.data := []; Zip.unreadable := None |} ].

(** A stand-in for the HTML parser that knows two texts and rejects
    every other one. *)
Definition two_page_parser (markup : string) : result Html.soup :=
  if String.eqb markup "headings" then Ok heading_only
  else if String.eqb markup "page" then Ok two_headings_one_pair
  else Raise ParserRejectedMarkup.


(** An archive with an encrypted entry. *)
Definition locked_archive : Zip.archive :=
  [ {| Zip.name := "xl/styles.xml"; Zip.data := [Byte.x01]; Zip.unreadable := None |};
    {| Zip.name := "secret.bin"; Zip.data := [Byte.x02];
       Zip.unreadable := Some Zip.Encrypted |} ].

End Samples.

(** ** More of the source: CSV export and the controller *)

Module Csv.

Import TaxSaleStates.

(** [DictWriter._dict_to_list] with the writer's defaults: a key of the
    row outside the field names is a [ValueError] ([extrasaction] is
    "raise"), a field name the row lacks gives the empty string
    ([restval]). *)
Definition dict_to_list (fieldnames : list string) (rowdict : record)
    : result (list string) :=
  if existsb (fun k => negb (PyStr.str_in k fieldnames)) (PyDict.keys rowdict)
  then Raise ValueError
  else
    Ok (map (fun key => match PyDict.get String.eqb key rowdict with
                        | Some v => v
                        | None => ""
                        end) fieldnames).

(** [dict(zip(fieldnames, fieldnames))], the row of [writeheader]. *)
Definition header_dict (fieldnames : list string) : record :=
  fold_left (fun d k => PyDict.set String.eqb k k d) fieldnames [].

(** [writerows]: the rows are handed to the underlying writer one by
    one; the rows handed over so far stay written when a later row
    raises. *)
Fixpoint writerows (fieldnames : list string) (rowdicts : list record)
    (written : list (list string)) : list (list string) * result unit :=
  match rowdicts with
  | [] => (written, Ok tt)
  | rowdict :: rest =>
      match dict_to_list fieldnames rowdict with
      | Ok row => writerows fieldnames rest (written ++ [row])%list
      | Raise e => (written, Raise e)
      end
  end.

(** [MainController.write_csv]: the rows of fields handed to the CSV
    writer, header first, and how the call ends. Quoting the fields
    and writing the file are the writer's and are not modelled. *)
Definition write_csv (key_title : str_dict string) (data : list record)
    : list (list string) * result unit :=
  let fieldnames := titles key_title in
  match dict_to_list fieldnames (header_dict fieldnames) with
  | Ok header => writerows fieldnames data [header]
  | Raise e => ([], Raise e)
  end.

End Csv.

Module Controller.

Import TaxSaleStates.

(** [self.title_title] of [TaxSaleStates.__init__]: every title mapped
    to itself. *)
Definition title_title (key_title : str_dict string) : str_dict string :=
  fold_left (fun d title => PyDict.set String.eqb title title d) (titles key_title) [].

(** The records of [parse] as the rows [create_workbook] reads: every
    value is a string. *)
Definition as_rows (data : list record) : list (str_dict Sheet.pyvalue) :=
  map (map (fun kv => (fst kv, Sheet.PyStr (snd kv)))) data.

(** The call of [WorkbookController.create_workbook] in
    [MainController.create_workbook]; saving the workbook and the
    container repair follow it. The workbook title and the sheet title
    are the model's name, taken to be one that the engine accepts as
    a sheet title. *)
Definition create_workbook (key_title : str_dict string) (data : list record)
    (class_name : string) : result Workbook.workbook :=
  Workbook.create_workbook (title_title key_title) (as_rows data) class_name.

End Controller.

Module MoreNotions.

(** [pat in s] for strings. *)
Fixpoint contains (pat s : string) : bool :=
  match s with
  | EmptyString => prefix pat EmptyString
  | String _ rest => prefix pat s || contains pat rest
  end.

(** The cell that the loops of [create_workbook] leave for a key of a
    row: the three attributes of lines 175-184, the value as the cell
    keeps it. *)
Definition data_cell (row : str_dict Sheet.pyvalue) (key : string) : Sheet.cell :=
  let value :=
    match PyDict.get String.eqb key row with
    | Some v => v
    | None => Sheet.PyStr ""
    end in
  if Sheet.isinstance_datetime value
  then {| Sheet.number_format := Sheet.ISO_8601_NUMBER_FORMAT;
          Sheet.value := Notions.kept value;
          Sheet.data_type := "d" |}
  else {| Sheet.number_format := Sheet.FORMAT_TEXT;
          Sheet.value := Notions.kept value;
          Sheet.data_type := "s" |}.

Definition cell_of (r c : nat) (wb : Workbook.workbook) : option Sheet.cell :=
  PyDict.get Sheet.coord_eqb (r, c) (Sheet.cells (Workbook.sheet wb)).

(** The fields of a record handed to the CSV writer: one per field
    name, the empty string for a field name the record lacks. *)
Definition csv_row (fieldnames : list string) (rowdict : TaxSaleStates.record)
    : list string :=
  map (fun key => match PyDict.get String.eqb key rowdict with
                  | Some v => v
                  | None => ""
                  end) fieldnames.

(** The description [parse] makes of a notes node. *)
Definition description_of (notes : Html.node) : string :=
  PyStr.lstrip (PyStr.removeprefix "NOTES:" (PyStr.strip (Html.get_text notes))).

End MoreNotions.

Module MoreSamples.

(** A theme text with no colour of the table. *)
Definition plain_theme : string := "<a:srgbClr val=" ++ PyStr.dquote ++ "FFFFFF" ++ PyStr.dquote ++ "/>".

(** A record with a key outside the schema, between two records
    within it. *)
Definition csv_records : list TaxSaleStates.record :=
  [ [("State", "Alabama"); ("Type", "Lien")];
    [("State", "Alaska"); ("County fee", "5")];
    [("State", "Arizona")] ].

End MoreSamples.

(** * Properties *)

(** ** Facts on strings *)

Module PyStrFacts.

Import PyStr Notions.

Lemma length_drop_le (n : nat) (s : string) :
  String.length (drop n s) <= String.length s.
Proof.
  revert s. induction n as [|n IH]; intros [|c s]; simpl; try lia.
  specialize (IH s). lia.
Qed.

Lemma drop_append_length (b s : string) : drop (String.length b) (b ++ s) = s.
Proof. induction b as [|c b IH]; simpl; auto. Qed.

Lemma prefix_split (p s : string) :
  prefix p s = true -> s = p ++ drop (String.length p) s.
Proof.
  revert s. induction p as [|c p IH]; intros s H.
  - reflexivity.
  - destruct s as [|d s]; simpl in H; [discriminate|].
    destruct (ascii_dec c d) as [->|]; [|discriminate].
    simpl. f_equal. now apply IH.
Qed.

Lemma prefix_nil (s : string) : prefix "" s = true.
Proof. now destruct s. Qed.

Lemma prefix_append_short (p b x : string) :
  String.length p <= String.length b -> prefix p (b ++ x) = prefix p b.
Proof.
  revert b. induction p as [|c p IH]; intros b Hlen; simpl in *.
  - now rewrite !prefix_nil.
  - destruct b as [|d b]; simpl in *; [lia|].
    destruct (ascii_dec c d); [apply IH; lia | reflexivity].
Qed.

Lemma has_char_cons (a c : ascii) (s : string) :
  has_char a (String c s) = false -> c <> a /\ has_char a s = false.
Proof.
  simpl. intro H. apply orb_false_iff in H. destruct H as [H1 H2].
  split; [|exact H2]. intros ->. rewrite Ascii.eqb_refl in H1. discriminate.
Qed.

Section Replace.
(** Patterns that open with a character [a] found nowhere else in
    them: [old = a ob], [new = a nb]. *)
Variable a : ascii.
Variables ob nb : string.

Let old : string := String a ob.
Let new : string := String a nb.

Lemma replace_from_drop (k : nat) (s : string) :
  replace_from old new k s = replace old new (drop k s).
Proof.
  unfold replace. revert k. induction s as [|c s IH]; intros [|k]; try reflexivity.
  simpl drop. rewrite <- IH. reflexivity.
Qed.

Lemma replace_empty : replace old new "" = "".
Proof. reflexivity. Qed.

Lemma replace_cons_other (c : ascii) (s : string) :
  c <> a -> replace old new (String c s) = String c (replace old new s).
Proof.
  intro Hc. unfold replace. simpl.
  destruct (ascii_dec a c) as [E|_]; [congruence | reflexivity].
Qed.

Lemma replace_cons_marker (s : string) :
  replace old new (String a s) =
  if prefix ob s
  then String a (nb ++ replace old new (drop (String.length ob) s))
  else String a (replace old new s).
Proof.
  unfold replace at 1. simpl.
  destruct (ascii_dec a a) as [_|N]; [|congruence].
  destruct (prefix ob s); [|reflexivity].
  rewrite Nat.sub_0_r, replace_from_drop. reflexivity.
Qed.

Lemma replace_append_free (b s : string) :
  has_char a b = false -> replace old new (b ++ s) = b ++ replace old new s.
Proof.
  induction b as [|c b IH]; intro H; simpl.
  - reflexivity.
  - apply has_char_cons in H. destruct H as [Hc Hb].
    rewrite replace_cons_other by exact Hc. now rewrite IH.
Qed.

Lemma prefix_replace_free (p s : string) :
  has_char a p = false -> prefix p (replace old new s) = prefix p s.
Proof.
  revert s. induction p as [|c p IH]; intros s H.
  - now rewrite !prefix_nil.
  - apply has_char_cons in H. destruct H as [Hc Hp].
    destruct s as [|d s]; [reflexivity|].
    destruct (Ascii.eqb_spec d a) as [->|Hd].
    + rewrite replace_cons_marker. simpl.
      destruct (prefix ob s); simpl;
        destruct (ascii_dec c a); congruence.
    + rewrite replace_cons_other by exact Hd. simpl.
      destruct (ascii_dec c d); [apply IH; exact Hp | reflexivity].
Qed.

End Replace.

Section Rules.
(** A list of replacements applied one after the other, every pattern
    opening with [a]; a rule is the pair of what follows [a] in the
    old and in the new text. *)
Variable a : ascii.
Variable n : nat.

Lemma apply_rules_empty (rs : list (string * string)) : apply_rules a rs "" = "".
Proof. induction rs as [|r rs IH]; simpl; auto. Qed.

Lemma apply_rules_cons_other (rs : list (string * string)) (c : ascii) (s : string) :
  c <> a -> apply_rules a rs (String c s) = String c (apply_rules a rs s).
Proof.
  intro Hc. revert s. induction rs as [|r rs IH]; intro s; simpl.
  - reflexivity.
  - rewrite replace_cons_other by exact Hc. apply IH.
Qed.

Lemma apply_rules_append_free (rs : list (string * string)) (b s : string) :
  has_char a b = false -> apply_rules a rs (b ++ s) = b ++ apply_rules a rs s.
Proof.
  induction b as [|c b IH]; intro H; simpl.
  - reflexivity.
  - apply has_char_cons in H. destruct H as [Hc Hb].
    rewrite apply_rules_cons_other by exact Hc. now rewrite IH.
Qed.

Lemma prefix_apply_rules_free (rs : list (string * string)) (p s : string) :
  has_char a p = false -> prefix p (apply_rules a rs s) = prefix p s.
Proof.
  intro H. revert s. induction rs as [|r rs IH]; intro s; simpl.
  - reflexivity.
  - rewrite IH. apply prefix_replace_free. exact H.
Qed.

Lemma find_matching_ext (rs : list (string * string)) (s t : string) :
  (forall r, In r rs -> prefix (fst r) s = prefix (fst r) t) ->
  find (matching s) rs = find (matching t) rs.
Proof.
  induction rs as [|r rs IH]; intro H; simpl.
  - reflexivity.
  - unfold matching at 1 3. rewrite (H r) by (left; reflexivity).
    destruct (prefix (fst r) t); [reflexivity|].
    apply IH. intros r' Hr'. apply H. right. exact Hr'.
Qed.

Lemma find_matching_none (rs : list (string * string)) (s : string) :
  (forall r, In r rs -> prefix (fst r) s = false) ->
  find (matching s) rs = None.
Proof.
  induction rs as [|r rs IH]; intro H; simpl.
  - reflexivity.
  - unfold matching at 1. rewrite (H r) by (left; reflexivity).
    apply IH. intros r' Hr'. apply H. right. exact Hr'.
Qed.

(** At an [a], the first rule whose old text follows decides. *)
Lemma apply_rules_marker (rs : list (string * string)) :
  shaped a n rs -> separated rs ->
  forall s,
    apply_rules a rs (String a s) =
    match find (matching s) rs with
    | Some r => String a (snd r ++ apply_rules a rs (drop n s))
    | None => String a (apply_rules a rs s)
    end.
Proof.
  induction rs as [|r rs IH]; intros Hsh Hsep s.
  - reflexivity.
  - inversion Hsh as [|r0 rs0 (Lo & Ln & Fo & Fn) Hsh']; subst r0 rs0.
    assert (Hsep' : separated rs).
    { intros x y Hx Hy. apply Hsep; right; assumption. }
    specialize (IH Hsh' Hsep').
    simpl apply_rules. simpl find. unfold matching at 1.
    rewrite replace_cons_marker.
    destruct (prefix (fst r) s) eqn:Hp.
    + rewrite IH, Lo.
      rewrite find_matching_none.
      * now rewrite apply_rules_append_free by exact Fn.
      * intros r' Hr'. rewrite prefix_append_short.
        -- apply Hsep; [left; reflexivity | right; exact Hr'].
        -- rewrite Forall_forall in Hsh'. destruct (Hsh' r' Hr') as (L' & _). lia.
    + rewrite IH.
      rewrite (find_matching_ext rs _ s).
      * destruct (find (matching s) rs) as [r'|] eqn:Hf; [|reflexivity].
        apply find_some in Hf. destruct Hf as [Hin Hm]. unfold matching in Hm.
        rewrite Forall_forall in Hsh'. destruct (Hsh' r' Hin) as (L' & _ & F' & _).
        apply prefix_split in Hm. rewrite L' in Hm.
        rewrite Hm at 1. rewrite replace_append_free by exact F'.
        rewrite <- L' at 1. rewrite drop_append_length. reflexivity.
      * intros r' Hr'. apply prefix_replace_free.
        rewrite Forall_forall in Hsh'. now destruct (Hsh' r' Hr') as (_ & _ & F' & _).
Qed.

Lemma apply_rules_idempotent_bounded (rs : list (string * string)) :
  shaped a n rs -> separated rs ->
  forall m s, String.length s <= m ->
    apply_rules a rs (apply_rules a rs s) = apply_rules a rs s.
Proof.
  intros Hsh Hsep. induction m as [|m IH]; intros s Hlen.
  - destruct s; simpl in Hlen; [|lia]. now rewrite !apply_rules_empty.
  - destruct s as [|c s]; [now rewrite !apply_rules_empty|].
    simpl in Hlen.
    destruct (Ascii.eqb_spec c a) as [->|Hc].
    + rewrite (apply_rules_marker rs Hsh Hsep s).
      destruct (find (matching s) rs) as [r|] eqn:Hf.
      * apply find_some in Hf. destruct Hf as [Hin _].
        pose proof Hsh as Hall. unfold shaped in Hall.
        rewrite Forall_forall in Hall.
        destruct (Hall r Hin) as (_ & Ln & _ & Fn).
        rewrite (apply_rules_marker rs Hsh Hsep).
        rewrite find_matching_none.
        -- rewrite apply_rules_append_free by exact Fn.
           rewrite IH; [reflexivity|].
           pose proof (length_drop_le n s). lia.
        -- intros r' Hr'. rewrite prefix_append_short.
           ++ now apply Hsep.
           ++ destruct (Hall r' Hr') as (L' & _). lia.
      * rewrite (apply_rules_marker rs Hsh Hsep).
        rewrite (find_matching_ext rs _ s), Hf.
        -- rewrite IH; [reflexivity | lia].
        -- intros r' Hr'. apply prefix_apply_rules_free.
           unfold shaped in Hsh. rewrite Forall_forall in Hsh.
           now destruct (Hsh r' Hr') as (_ & _ & F' & _).
    + rewrite !apply_rules_cons_other by exact Hc.
      rewrite IH; [reflexivity | lia].
Qed.

Lemma apply_rules_idempotent (rs : list (string * string)) :
  shaped a n rs -> separated rs ->
  forall s, apply_rules a rs (apply_rules a rs s) = apply_rules a rs s.
Proof.
  intros Hsh Hsep s.
  apply (apply_rules_idempotent_bounded rs Hsh Hsep (String.length s)). lia.
Qed.

End Rules.

End PyStrFacts.

(** ** The theme patch *)

Module ThemeFacts.

Import PyStr PyStrFacts Theme Notions.

Lemma patch_xml_rules (xml : string) :
  patch_xml xml = apply_rules "v" color_rules xml.
Proof. reflexivity. Qed.

Lemma color_rules_shaped : shaped "v" 11 color_rules.
Proof. unfold shaped, color_rules, color. repeat constructor. Qed.

Lemma color_rules_separated : separated color_rules.
Proof.
  assert (H : forallb
                (fun r => forallb (fun r' => negb (prefix (fst r') (snd r))) color_rules)
                color_rules = true) by reflexivity.
  intros r r' Hr Hr'.
  rewrite forallb_forall in H. specialize (H r Hr).
  rewrite forallb_forall in H. specialize (H r' Hr').
  now apply negb_true_iff in H.
Qed.

Lemma patch_xml_idempotent (xml : string) :
  patch_xml (patch_xml xml) = patch_xml xml.
Proof.
  rewrite !patch_xml_rules.
  apply (apply_rules_idempotent "v" 11).
  - exact color_rules_shaped.
  - exact color_rules_separated.
Qed.

Lemma construct_updated (n : nat) (p : process) :
  was_theme_updated p = true -> construct n p = p.
Proof.
  revert p. induction n as [|n IH]; intros p H; simpl.
  - reflexivity.
  - unfold init. rewrite H. simpl. apply IH. exact H.
Qed.

Lemma construct_start (n : nat) (template : string) :
  construct (S n) (start template) = init (start template).
Proof. simpl. apply construct_updated. reflexivity. Qed.

(** C6. The theme patch is idempotent: on any theme state, and so on
    the engine's template, [update_theme] run twice leaves the same
    two theme texts as run once. The flag makes the body run at most
    once in a process: however many controllers are constructed from a
    fresh process the body has run at most once, and from the first
    controller on the theme is the once-patched template. *)
Theorem update_theme_idempotent_once :
  (forall p : process,
     themes (update_theme (update_theme p)) = themes (update_theme p))
  /\ (forall (template : string) (n : nat),
        patch_runs (construct n (start template)) = Nat.min n 1
        /\ patch_runs (construct n (start template)) <= 1)
  /\ (forall (template : string) (n : nat),
        themes (construct (S n) (start template))
        = (patch_xml template, patch_xml template)).
Proof.
  split; [|split].
  - intro p. unfold themes, update_theme. simpl.
    now rewrite patch_xml_idempotent.
  - intros template [|n].
    + simpl. split; [reflexivity | lia].
    + rewrite construct_start. simpl. split; lia.
  - intros template n. rewrite construct_start. reflexivity.
Qed.

End ThemeFacts.

(** ** The container repair *)

Module ZipFacts.

Import Zip Notions.

Lemma entry_eta (e : entry) :
  unreadable e = None ->
  {| name := name e; data := data e; unreadable := None |} = e.
Proof. destruct e. simpl. now intros ->. Qed.

Lemma open_served (n : string) (z : archive) (e : entry) :
  open n z = Ok e -> name e = n /\ In e z /\ unreadable e = None.
Proof.
  unfold open. destruct (find _ (rev z)) as [e'|] eqn:F; [|discriminate].
  apply find_some in F. destruct F as [Hin Hname].
  apply String.eqb_eq in Hname. apply in_rev in Hin.
  destruct (unreadable e') as [[]|] eqn:U; intro H; try discriminate.
  injection H as <-. auto.
Qed.

Lemma open_raises (n : string) (z : archive) (e : exn) :
  readable z -> open n z = Raise e -> e = KeyError.
Proof.
  intro Hr. unfold open. destruct (find _ (rev z)) as [e'|] eqn:F.
  - apply find_some in F. destruct F as [Hin _]. apply in_rev in Hin.
    rewrite (Hr e' Hin). discriminate.
  - congruence.
Qed.

Lemma copy_entries_flat_map (z : archive) (names : list string) (buffer : archive) :
  readable z ->
  copy_entries z names buffer = Ok (buffer ++ flat_map (copied z) names)%list.
Proof.
  intro Hr. revert buffer. induction names as [|n names IH]; intro buffer; simpl.
  - now rewrite app_nil_r.
  - unfold copied at 1. destruct (open n z) as [file|e] eqn:E.
    + destruct (open_served _ _ _ E) as (_ & _ & U).
      rewrite IH, (entry_eta file U), <- app_assoc. reflexivity.
    + apply (open_raises _ _ _ Hr) in E. subst e. rewrite IH. reflexivity.
Qed.

Lemma name_injective (z : archive) (e e' : entry) :
  NoDup (namelist z) -> In e z -> In e' z -> name e = name e' -> e = e'.
Proof.
  unfold namelist. induction z as [|x z IH]; intros Hnd He He' Hn; [easy|].
  simpl in Hnd. inversion Hnd as [|? ? Hx Hz]; subst.
  destruct He as [->|He], He' as [->|He']; auto.
  - exfalso. apply Hx. rewrite Hn. now apply in_map.
  - exfalso. apply Hx. rewrite <- Hn. now apply in_map.
Qed.

(** Under distinct names the name table serves every entry itself. *)
Lemma served (z : archive) (e : entry) :
  NoDup (namelist z) -> In e z ->
  find (fun x => String.eqb (name x) (name e)) (rev z) = Some e.
Proof.
  intros Hnd He.
  destruct (find _ (rev z)) as [e'|] eqn:F.
  - apply find_some in F. destruct F as [Hin Hname].
    apply String.eqb_eq in Hname. apply in_rev in Hin.
    f_equal. now apply (name_injective z).
  - exfalso.
    pose proof (find_none _ _ F e (proj1 (in_rev z e) He)) as H.
    simpl in H. now rewrite String.eqb_refl in H.
Qed.

Lemma open_present (z : archive) (e : entry) :
  NoDup (namelist z) -> readable z -> In e z -> open (name e) z = Ok e.
Proof.
  intros Hnd Hr He. unfold open. rewrite (served z e Hnd He).
  now rewrite (Hr e He).
Qed.

Lemma open_absent (z : archive) (n : string) :
  ~ In n (namelist z) -> open n z = Raise KeyError.
Proof.
  intro H. unfold open.
  destruct (find _ (rev z)) as [e|] eqn:F; [|reflexivity].
  apply find_some in F. destruct F as [Hin Hname].
  apply String.eqb_eq in Hname. apply in_rev in Hin.
  exfalso. apply H. subst n. now apply in_map.
Qed.

Lemma named_absent (z : archive) (n : string) :
  ~ In n (namelist z) -> named z n = [].
Proof.
  unfold named, namelist. induction z as [|x z IH]; intro H; simpl in *.
  - reflexivity.
  - destruct (String.eqb_spec (name x) n) as [E|_].
    + exfalso. apply H. now left.
    + apply IH. intro Hin. apply H. now right.
Qed.

Lemma named_present (z : archive) (e : entry) :
  NoDup (namelist z) -> In e z -> named z (name e) = [e].
Proof.
  unfold namelist. induction z as [|x z IH]; intros Hnd He; [easy|].
  simpl in Hnd. inversion Hnd as [|? ? Hx Hz]; subst.
  unfold named. simpl. fold (named z (name e)).
  destruct He as [->|He].
  - rewrite String.eqb_refl. now rewrite named_absent.
  - destruct (String.eqb_spec (name x) (name e)) as [E|_].
    + exfalso. apply Hx. rewrite E. now apply in_map.
    + now apply IH.
Qed.

Lemma copied_named (z : archive) (n : string) :
  NoDup (namelist z) -> readable z -> copied z n = named z n.
Proof.
  intros Hnd Hr. unfold copied.
  destruct (in_dec string_dec n (namelist z)) as [Hin|Hout].
  - unfold namelist in Hin. apply in_map_iff in Hin.
    destruct Hin as (e & <- & He).
    now rewrite open_present, named_present.
  - now rewrite open_absent, named_absent.
Qed.

Lemma copied_sublist (z l : archive) :
  NoDup (namelist z) -> readable z -> incl l z ->
  flat_map (copied z) (map name l) = l.
Proof.
  intros Hnd Hr. induction l as [|e l IH]; intro Hincl; simpl.
  - reflexivity.
  - unfold copied at 1.
    rewrite open_present; [|exact Hnd|exact Hr|apply Hincl; now left].
    simpl. f_equal. apply IH. intros x Hx. apply Hincl. now right.
Qed.

Lemma filter_namelist (p : string -> bool) (z : archive) :
  filter p (namelist z) = map name (filter (fun e => p (name e)) z).
Proof.
  unfold namelist. induction z as [|x z IH]; simpl; [reflexivity|].
  destruct (p (name x)); simpl; now rewrite IH.
Qed.





End ZipFacts.

(** ** Facts on dictionaries *)

Module PyDictFacts.

Import PyDict.

Section Facts.
Context {K V : Type}.
Variable eqb : K -> K -> bool.
Hypothesis eqb_spec : forall a b, eqb a b = true <-> a = b.

Lemma eqb_same (a : K) : eqb a a = true.
Proof. now apply eqb_spec. Qed.

Lemma eqb_diff (a b : K) : a <> b -> eqb a b = false.
Proof.
  intro H. destruct (eqb a b) eqn:E; [|reflexivity].
  apply eqb_spec in E. contradiction.
Qed.

Lemma mem_In (k : K) (d : @dict K V) : mem eqb k d = true <-> In k (keys d).
Proof.
  unfold mem. induction d as [|[k' v] rest IH]; simpl.
  - split; [discriminate | tauto].
  - destruct (eqb k k') eqn:E.
    + apply eqb_spec in E. subst. split; auto.
    + rewrite IH. split; [auto | intros [H | H]; auto].
      subst. rewrite eqb_same in E. discriminate.
Qed.

Lemma mem_not_In (k : K) (d : @dict K V) : mem eqb k d = false <-> ~ In k (keys d).
Proof. rewrite <- mem_In. destruct (mem eqb k d); split; congruence. Qed.

Lemma keys_set (k : K) (v : V) (d : @dict K V) :
  keys (set eqb k v d) = if mem eqb k d then keys d else (keys d ++ [k])%list.
Proof.
  unfold mem. induction d as [|[k' v'] rest IH]; simpl.
  - reflexivity.
  - destruct (eqb k k') eqn:E; simpl.
    + reflexivity.
    + rewrite IH. now destruct (get eqb k rest).
Qed.

Lemma In_keys_set (k k' : K) (v : V) (d : @dict K V) :
  In k (keys (set eqb k' v d)) <-> k = k' \/ In k (keys d).
Proof.
  rewrite keys_set. destruct (mem eqb k' d) eqn:E.
  - apply mem_In in E. split; [auto | intros [-> | H]; auto].
  - rewrite in_app_iff. simpl. split; intros [H | H]; auto.
    destruct H as [-> | []]. auto.
Qed.

Lemma get_set_same (k : K) (v : V) (d : @dict K V) :
  get eqb k (set eqb k v d) = Some v.
Proof.
  induction d as [|[k' v'] rest IH]; simpl.
  - now rewrite eqb_same.
  - destruct (eqb k k') eqn:E; simpl; rewrite E; auto.
Qed.

Lemma get_set_other (k k' : K) (v : V) (d : @dict K V) :
  k <> k' -> get eqb k (set eqb k' v d) = get eqb k d.
Proof.
  intro Hne. induction d as [|[k0 v0] rest IH]; simpl.
  - now rewrite eqb_diff.
  - destruct (eqb k' k0) eqn:E; simpl.
    + apply eqb_spec in E. subst k0. now rewrite eqb_diff.
    + now destruct (eqb k k0).
Qed.

Lemma get_Some_In (k : K) (d : @dict K V) :
  get eqb k d <> None <-> In k (keys d).
Proof.
  rewrite <- mem_In. unfold mem. destruct (get eqb k d); split; congruence.
Qed.

Lemma keys_update (d e : @dict K V) (k : K) :
  In k (keys (update eqb d e)) <-> In k (keys d) \/ In k (keys e).
Proof.
  unfold update. revert d. induction e as [|[k' v'] e IH]; intro d; simpl.
  - tauto.
  - rewrite IH, In_keys_set. intuition (subst; auto).
Qed.

End Facts.

Lemma string_eqb_spec (a b : string) : String.eqb a b = true <-> a = b.
Proof. apply String.eqb_eq. Qed.

End PyDictFacts.

(** ** The sheet *)

Module SheetFacts.

Import Sheet PyDictFacts Notions.

Lemma coord_eqb_spec (a b : coord) : coord_eqb a b = true <-> a = b.
Proof.
  destruct a as [r c], b as [r' c']. unfold coord_eqb. simpl.
  rewrite andb_true_iff, !Nat.eqb_eq. split; [intros []; congruence | intros [= -> ->]; auto].
Qed.

Lemma list_max_In (l : list nat) (x : nat) : In x l -> x <= list_max l.
Proof.
  intro H. pose proof (proj1 (list_max_le l (list_max l)) (le_n _)) as F.
  rewrite Forall_forall in F. now apply F.
Qed.

Lemma list_max_eq (l : list nat) (m : nat) :
  (forall x, In x l -> x <= m) -> In m l -> list_max l = m.
Proof.
  intros Hle Hin. apply Nat.le_antisymm.
  - apply list_max_le, Forall_forall. exact Hle.
  - now apply list_max_In.
Qed.

Lemma max_row_coords (ws : worksheet) :
  coords ws <> [] -> max_row ws = list_max (map fst (coords ws)).
Proof.
  unfold max_row, coords, PyDict.keys. rewrite map_map.
  destruct (cells ws); simpl; [congruence | reflexivity].
Qed.

Lemma max_column_coords (ws : worksheet) :
  coords ws <> [] -> max_column ws = list_max (map snd (coords ws)).
Proof.
  unfold max_column, coords, PyDict.keys. rewrite map_map.
  destruct (cells ws); simpl; [congruence | reflexivity].
Qed.

Lemma cell_at_spec (r c : nat) (ws : worksheet) :
  1 <= r -> (N.of_nat r <= MAX_ROW)%N -> 1 <= c -> consistent ws ->
  exists ws1,
    cell_at r c ws = Ok ws1
    /\ consistent ws1
    /\ In (r, c) (coords ws1)
    /\ (forall k, In k (coords ws1) <-> k = (r, c) \/ In k (coords ws))
    /\ (forall k, k <> (r, c) ->
          PyDict.get coord_eqb k (cells ws1) = PyDict.get coord_eqb k (cells ws)).
Proof.
  intros Hr Hmax Hc Hcons. unfold cell_at.
  replace ((r <? 1) || (c <? 1))%nat with false
    by (symmetry; apply orb_false_iff; split; apply Nat.ltb_ge; lia).
  replace (negb ((0 <? N.of_nat r) && (N.of_nat r <? MAX_ROW + 1))%N) with false.
  2:{ symmetry. apply negb_false_iff, andb_true_iff.
      split; apply N.ltb_lt; unfold MAX_ROW in *; lia. }
  destruct (PyDict.mem coord_eqb (r, c) (cells ws)) eqn:M.
  - exists ws. apply (mem_In coord_eqb coord_eqb_spec) in M.
    repeat split; auto.
    + intros [-> | H]; auto.
  - eexists. split; [reflexivity|].
    unfold consistent, coords in *. cbn [cells current_row].
    rewrite (keys_set coord_eqb), M.
    repeat split.
    + rewrite map_app, list_max_app, Hcons. simpl list_max.
      rewrite Nat.max_0_r. apply Nat.max_comm.
    + apply in_or_app. right. now left.
    + rewrite in_app_iff. simpl. intros [H | [H | []]]; auto.
    + rewrite in_app_iff. simpl. intros [H | H]; auto.
    + intros k Hk. now apply (get_set_other coord_eqb coord_eqb_spec).
Qed.

Lemma cell_at_bounds (r c : nat) (ws ws1 : worksheet) :
  cell_at r c ws = Ok ws1 -> 1 <= r /\ (N.of_nat r <= MAX_ROW)%N /\ 1 <= c.
Proof.
  unfold cell_at.
  destruct ((r <? 1) || (c <? 1))%nat eqn:A; [discriminate|].
  destruct (negb ((0 <? N.of_nat r) && (N.of_nat r <? MAX_ROW + 1))%N) eqn:B;
    [discriminate|].
  intros _. apply orb_false_iff in A. destruct A as [A1 A2].
  apply Nat.ltb_ge in A1, A2.
  apply negb_false_iff, andb_true_iff in B. destruct B as [_ B].
  apply N.ltb_lt in B. repeat split; try assumption. lia.
Qed.

Lemma cell_at_present (r c : nat) (ws ws1 : worksheet) :
  In (r, c) (coords ws) -> cell_at r c ws = Ok ws1 -> ws1 = ws.
Proof.
  intros Hin. apply (mem_In coord_eqb coord_eqb_spec) in Hin.
  unfold cell_at. rewrite Hin.
  destruct ((r <? 1) || (c <? 1))%nat; [discriminate|].
  destruct (negb _); [discriminate|]. congruence.
Qed.

Lemma cell_at_ok (r c : nat) (ws ws1 : worksheet) :
  cell_at r c ws = Ok ws1 -> consistent ws ->
  consistent ws1
  /\ In (r, c) (coords ws1)
  /\ (forall k, In k (coords ws1) <-> k = (r, c) \/ In k (coords ws))
  /\ (forall k, k <> (r, c) ->
        PyDict.get coord_eqb k (cells ws1) = PyDict.get coord_eqb k (cells ws)).
Proof.
  intros E Hcons. destruct (cell_at_bounds _ _ _ _ E) as (Hr & Hmax & Hc).
  destruct (cell_at_spec r c ws Hr Hmax Hc Hcons) as (ws1' & E' & H).
  rewrite E in E'. injection E' as <-. exact H.
Qed.

Lemma take_all (s : string) :
  forall n : N, (N.of_nat (String.length s) <= n)%N -> PyStr.take n s = s.
Proof.
  induction s as [|c s IH]; intros n H; [reflexivity|].
  cbn [String.length] in H. rewrite Nat2N.inj_succ in H.
  cbn [PyStr.take]. destruct (N.eqb_spec n 0) as [->|Hn]; [lia|].
  f_equal. apply IH. lia.
Qed.

Lemma kept_short (s : string) :
  (N.of_nat (String.length s) <= MAX_TEXT)%N -> kept (PyStr s) = PyStr s.
Proof. intro H. simpl. now rewrite take_all. Qed.

Lemma bind_value_kept (v : pyvalue) (p : pyvalue * string) :
  bind_value v = Ok p -> fst p = kept v.
Proof.
  destruct v as [|s|d]; simpl.
  - now intros [= <-].
  - unfold check_string.
    destruct (has_illegal_character _); cbn [bind]; [discriminate|].
    now intros [= <-].
  - now intros [= <-].
Qed.

Lemma new_cell_appended (content : string) (cl : cell) :
  new_cell content = Ok cl -> cl = appended content.
Proof.
  unfold new_cell, bind_value, check_string.
  destruct (has_illegal_character _); cbn [bind]; [discriminate|].
  now intros [= <-].
Qed.

Lemma assign_ok (r c : nat) (fmt : string) (v : pyvalue) (dt : string)
    (ws ws2 : worksheet) :
  assign r c fmt v dt ws = Ok ws2 ->
  In (r, c) (coords ws) -> consistent ws ->
  consistent ws2
  /\ coords ws2 = coords ws
  /\ PyDict.get coord_eqb (r, c) (cells ws2)
     = Some {| number_format := fmt; value := kept v; data_type := dt |}
  /\ (forall k, k <> (r, c) ->
        PyDict.get coord_eqb k (cells ws2) = PyDict.get coord_eqb k (cells ws)).
Proof.
  unfold assign. destruct (bind_value v) as [p|] eqn:B; cbn [bind]; [|discriminate].
  intros [= <-] Hin Hcons. rewrite (bind_value_kept _ _ B).
  assert (E : forall w,
             coords {| cells := PyDict.set coord_eqb (r, c) w (cells ws);
                       current_row := current_row ws |} = coords ws).
  { intro w. unfold coords. cbn [cells].
    rewrite (keys_set coord_eqb).
    apply (mem_In coord_eqb coord_eqb_spec) in Hin. now rewrite Hin. }
  repeat split.
  - unfold consistent. rewrite E. exact Hcons.
  - apply E.
  - apply (get_set_same coord_eqb coord_eqb_spec).
  - intros k Hk. now apply (get_set_other coord_eqb coord_eqb_spec).
Qed.

Lemma append_cells_ok (row_idx : nat) (contents : list string) :
  forall (col_idx : nat) (cs cs' : @PyDict.dict coord cell),
    append_cells row_idx col_idx contents cs = Ok cs' ->
    (forall k, In k (PyDict.keys cs')
               <-> In k (PyDict.keys cs)
                   \/ (fst k = row_idx
                       /\ col_idx <= snd k < col_idx + List.length contents))
    /\ (forall j, j < List.length contents ->
          PyDict.get coord_eqb (row_idx, col_idx + j) cs'
          = Some (appended (nth j contents "")))
    /\ (forall k, fst k <> row_idx \/ snd k < col_idx ->
          PyDict.get coord_eqb k cs' = PyDict.get coord_eqb k cs).
Proof.
  induction contents as [|content rest IH]; intros col_idx cs cs' H.
  - injection H as <-. simpl. repeat split; auto.
    + intros [H | H]; [exact H | lia].
    + intros j Hj. lia.
  - cbn [append_cells] in H.
    destruct (new_cell content) as [cl|] eqn:EC; cbn [bind] in H; [|discriminate].
    apply new_cell_appended in EC. subst cl.
    destruct (IH _ _ _ H) as (M & G & O). repeat split.
    + rewrite M, (In_keys_set coord_eqb coord_eqb_spec).
      destruct k as [r c]. simpl.
      intros [[[= -> ->] | Hk] | Hk]; [right; lia | now left | right; lia].
    + rewrite M, (In_keys_set coord_eqb coord_eqb_spec).
      destruct k as [r c]. simpl. intros [Hk | [-> Hk]]; [left; now right|].
      destruct (Nat.eq_dec c col_idx) as [->|Hne]; [left; now left | right; lia].
    + intros [|j] Hj.
      * rewrite Nat.add_0_r, O by (right; simpl; lia).
        apply (get_set_same coord_eqb coord_eqb_spec).
      * replace (col_idx + S j) with (S col_idx + j) by lia.
        apply G. simpl in Hj. lia.
    + intros k Hk. rewrite O by (destruct Hk; [now left | right; lia]).
      apply (get_set_other coord_eqb coord_eqb_spec).
      intros ->. simpl in Hk. lia.
Qed.

Lemma get_column_letter_returns (col_idx : nat) :
  1 <= col_idx -> (N.of_nat col_idx <= MAX_COLUMN)%N ->
  get_column_letter col_idx
  = Ok (string_of_list_ascii (rev (letters_loop col_idx col_idx []))).
Proof.
  intros H1 H2. unfold get_column_letter.
  replace (negb ((1 <=? N.of_nat col_idx) && (N.of_nat col_idx <=? MAX_COLUMN))%N)
    with false; [reflexivity|].
  symmetry. apply negb_false_iff, andb_true_iff. split; apply N.leb_le; lia.
Qed.

Lemma get_column_letter_bounds (col_idx : nat) (letter : string) :
  get_column_letter col_idx = Ok letter ->
  1 <= col_idx /\ (N.of_nat col_idx <= MAX_COLUMN)%N.
Proof.
  unfold get_column_letter.
  destruct (negb _) eqn:B; [discriminate|]. intros _.
  apply negb_false_iff, andb_true_iff in B. destruct B as [B1 B2].
  apply N.leb_le in B1, B2. split; lia.
Qed.

(** A column that has all its cells is walked without a change of the
    sheet, and its rows are rows of the sheet. *)
Lemma column_lengths_ok (c : nat) (rows : list nat) :
  forall (ws : worksheet) (walked : worksheet * list nat),
    column_lengths rows c ws = Ok walked ->
    (forall r, In r rows -> In (r, c) (coords ws)) ->
    fst walked = ws /\ (forall r, In r rows -> (N.of_nat r <= MAX_ROW)%N).
Proof.
  induction rows as [|r rows IH]; intros ws walked H Hall.
  - injection H as <-. split; [reflexivity | intros r []].
  - cbn [column_lengths] in H.
    destruct (cell_at r c ws) as [ws1|] eqn:E; cbn [bind] in H; [|discriminate].
    pose proof (cell_at_present r c ws ws1 (Hall r (or_introl eq_refl)) E) as ->.
    destruct (cell_at_bounds _ _ _ _ E) as (_ & Hmax & _).
    destruct (column_lengths rows c ws) as [w|] eqn:EW; cbn [bind] in H; [|discriminate].
    injection H as <-. cbn [fst].
    destruct (IH ws w EW) as (Hw & Hrows); [intros x Hx; apply Hall; now right|].
    split; [exact Hw|]. intros x [<-|Hx]; [exact Hmax | now apply Hrows].
Qed.

Lemma autosize_from_ok (rows : list nat) (columns : list nat) :
  forall (ws : worksheet) (widths : str_dict nat) (sized : worksheet * str_dict nat),
    autosize_from columns rows ws widths = Ok sized ->
    (forall r c, In r rows -> In c columns -> In (r, c) (coords ws)) ->
    fst sized = ws
    /\ (columns <> [] -> forall r, In r rows -> (N.of_nat r <= MAX_ROW)%N).
Proof.
  induction columns as [|c columns IH]; intros ws widths sized H Hall.
  - injection H as <-. split; [reflexivity | congruence].
  - cbn [autosize_from] in H.
    destruct (column_lengths rows c ws) as [w|] eqn:EW; cbn [bind] in H; [|discriminate].
    destruct (column_lengths_ok c rows ws w EW) as (Hw & Hrows);
      [intros r Hr; apply Hall; [exact Hr | now left]|].
    destruct (get_column_letter c) as [letter|]; cbn [bind] in H; [|discriminate].
    rewrite Hw in H.
    destruct (IH _ _ _ H) as (Hs & _);
      [intros r c' Hr Hc'; apply Hall; [exact Hr | now right]|].
    split; [exact Hs | intros _; exact Hrows].
Qed.

Lemma autosize_columns_ok (ws : worksheet) (sized : worksheet * str_dict nat) :
  autosize_columns ws = Ok sized ->
  current_row ws <> 0 -> 1 <= max_row ws -> 1 <= max_column ws ->
  (forall r c, 1 <= r <= max_row ws -> 1 <= c <= max_column ws ->
               In (r, c) (coords ws)) ->
  fst sized = ws /\ (N.of_nat (max_row ws) <= MAX_ROW)%N.
Proof.
  unfold autosize_columns. intros H Hcur HR HC Hall.
  destruct (Nat.eqb_spec (current_row ws) 0) as [E|_]; [contradiction|].
  destruct (autosize_from_ok _ _ _ _ _ H) as (Hs & Hrows).
  - intros r c Hr Hc. apply in_seq in Hr, Hc. apply Hall; lia.
  - split; [exact Hs|]. apply Hrows.
    + destruct (max_column ws); [lia | discriminate].
    + apply in_seq. lia.
Qed.

End SheetFacts.

(** ** create_workbook *)

Module WorkbookFacts.

Import Sheet Workbook PyDictFacts SheetFacts Notions MoreNotions.

Lemma data_cell_of (row : str_dict pyvalue) (key : string) :
  let value :=
    if PyDict.mem String.eqb key row
    then match PyDict.get String.eqb key row with
         | Some v => v
         | None => PyStr ""
         end
    else PyStr "" in
  {| number_format :=
       if isinstance_datetime value then ISO_8601_NUMBER_FORMAT else FORMAT_TEXT;
     value := kept value;
     data_type := if isinstance_datetime value then "d" else "s" |}
  = data_cell row key.
Proof.
  cbv zeta. unfold data_cell, PyDict.mem.
  destruct (PyDict.get String.eqb key row) as [v|]; [|reflexivity].
  now destruct (isinstance_datetime v).
Qed.

(** What the inner loop leaves when it ends without an exception. *)
Lemma fill_row_ok (r : nat) (row : str_dict pyvalue) (keys : list string) :
  forall (c : nat) (ws ws' : worksheet),
    fill_row keys r c row ws = Ok ws' ->
    1 <= c -> consistent ws ->
    (keys <> [] -> 1 <= r /\ (N.of_nat r <= MAX_ROW)%N)
    /\ consistent ws'
    /\ (forall k, In k (coords ws')
                  <-> In k (coords ws)
                      \/ (fst k = r /\ c <= snd k < c + List.length keys))
    /\ (forall j, j < List.length keys ->
          PyDict.get coord_eqb (r, c + j) (cells ws')
          = Some (data_cell row (nth j keys "")))
    /\ (forall k, fst k <> r \/ snd k < c ->
          PyDict.get coord_eqb k (cells ws') = PyDict.get coord_eqb k (cells ws)).
Proof.
  induction keys as [|key rest IH]; intros c ws ws' H Hc Hcons.
  - injection H as <-. simpl. repeat split; auto; try congruence.
    + intros [H | H]; [exact H | lia].
    + intros j Hj. lia.
  - cbn [fill_row] in H. cbv zeta in H.
    destruct (cell_at r c ws) as [ws1|] eqn:E1; cbn [bind] in H; [|discriminate].
    destruct (cell_at_bounds _ _ _ _ E1) as (Hr & Hmax & _).
    destruct (cell_at_ok _ _ _ _ E1 Hcons) as (C1 & In1 & M1 & G1).
    destruct (assign r c _ _ _ ws1) as [ws2|] eqn:E2; cbn [bind] in H; [|discriminate].
    destruct (assign_ok _ _ _ _ _ _ _ E2 In1 C1) as (C2 & K2 & G2 & O2).
    rewrite (data_cell_of row key) in G2.
    destruct (IH (S c) ws2 ws' H) as (_ & C' & M' & G' & O'); [lia | exact C2 |].
    split; [intros _; now split|]. split; [exact C'|]. repeat split.
    + rewrite M', K2, M1. destruct k as [r' c']. simpl.
      intros [[[= -> ->] | Hk] | Hk]; [right; lia | now left | right; lia].
    + rewrite M', K2, M1. destruct k as [r' c']. simpl.
      intros [Hk | [-> Hk]]; [left; now right|].
      destruct (Nat.eq_dec c' c) as [->|Hne]; [left; now left | right; lia].
    + intros [|j] Hj.
      * rewrite Nat.add_0_r, O' by (right; simpl; lia). exact G2.
      * replace (c + S j) with (S c + j) by lia. apply G'. simpl in Hj. lia.
    + intros k Hk. rewrite O' by (destruct Hk; [now left | right; lia]).
      rewrite O2, G1; try reflexivity; intros ->; simpl in Hk; lia.
Qed.

(** What the outer loop leaves when it ends without an exception. *)
Lemma fill_rows_ok (keys : list string) (rows : list (str_dict pyvalue)) :
  forall (r : nat) (ws ws' : worksheet),
    fill_rows keys rows r ws = Ok ws' ->
    1 <= r -> consistent ws ->
    (keys <> [] -> rows <> [] ->
     (N.of_nat (r + List.length rows - 1) <= MAX_ROW)%N)
    /\ consistent ws'
    /\ (forall k, In k (coords ws')
                  <-> In k (coords ws)
                      \/ (r <= fst k < r + List.length rows
                          /\ 1 <= snd k < 1 + List.length keys))
    /\ (forall i j, i < List.length rows -> j < List.length keys ->
          PyDict.get coord_eqb (r + i, 1 + j) (cells ws')
          = Some (data_cell (nth i rows []) (nth j keys "")))
    /\ (forall k, fst k < r ->
          PyDict.get coord_eqb k (cells ws') = PyDict.get coord_eqb k (cells ws)).
Proof.
  induction rows as [|row rest IH]; intros r ws ws' H Hr Hcons.
  - injection H as <-. simpl. repeat split; auto; try congruence.
    + intros [H | H]; [exact H | lia].
    + intros i j Hi. lia.
  - cbn [fill_rows] in H.
    destruct (fill_row keys r 1 row ws) as [ws1|] eqn:E1; cbn [bind] in H; [|discriminate].
    destruct (fill_row_ok r row keys 1 ws ws1 E1) as (B1 & C1 & M1 & G1 & O1);
      [lia | exact Hcons |].
    destruct (IH (S r) ws1 ws' H) as (B' & C' & M' & G' & O'); [lia | exact C1 |].
    cbn [List.length]. split; [|split; [exact C'|repeat split]].
    + intros Hk _. destruct rest as [|row' rest'].
      * simpl. replace (r + 1 - 1) with r by lia. now apply B1.
      * specialize (B' Hk ltac:(discriminate)).
        replace (r + S (List.length (row' :: rest')) - 1)
          with (S r + List.length (row' :: rest') - 1) by lia.
        exact B'.
    + rewrite M', M1. destruct k as [r' c']. simpl.
      intros [[Hk | Hk] | Hk]; [now left | right; lia | right; lia].
    + rewrite M', M1. destruct k as [r' c']. simpl.
      intros [Hk | Hk]; [left; now left|].
      destruct (Nat.eq_dec r' r) as [->|Hne]; [left; right; lia | right; lia].
    + intros [|i] j Hi Hj.
      * rewrite Nat.add_0_r, O' by (simpl; lia). now apply G1.
      * replace (r + S i) with (S r + i) by lia. apply G'; lia.
    + intros k Hk. rewrite O' by lia. apply O1. left. lia.
Qed.

Lemma fill_rows_no_keys (rows : list (str_dict pyvalue)) :
  forall (r : nat) (ws : worksheet), fill_rows [] rows r ws = Ok ws.
Proof. induction rows as [|row rows IH]; intros r ws; simpl; auto. Qed.

Lemma list_assign_spec {A : Type} (d v : A) (l : list A) :
  forall i, i < List.length l ->
    exists l',
      list_assign i v l = Ok l'
      /\ List.length l' = List.length l
      /\ nth i l' d = v
      /\ (forall j, j <> i -> nth j l' d = nth j l d).
Proof.
  induction l as [|x l IH]; intros i Hi; simpl in Hi; [lia|].
  destruct i as [|i]; simpl.
  - exists (v :: l). repeat split. intros [|j] Hj; [congruence | reflexivity].
  - destruct (IH i) as (l' & E & L & Hn & Ho); [lia|].
    rewrite E. cbn [bind]. exists (x :: l'). repeat split; simpl; auto.
    intros [|j] Hj; [reflexivity | apply Ho; lia].
Qed.

Lemma list_assign_bound {A : Type} (v : A) (l : list A) :
  forall i l', list_assign i v l = Ok l' -> i < List.length l.
Proof.
  induction l as [|x l IH]; intros i l' H.
  - destruct i; discriminate.
  - destruct i as [|i]; simpl in *; [lia|].
    destruct (list_assign i v l) as [r|] eqn:E; cbn [bind] in H; [|discriminate].
    apply IH in E. lia.
Qed.

Lemma list_modify_bound {A : Type} (f : A -> A) (l : list A) :
  forall i l', list_modify i f l = Ok l' ->
    i < List.length l /\ List.length l' = List.length l.
Proof.
  induction l as [|x l IH]; intros i l' H.
  - destruct i; discriminate.
  - destruct i as [|i]; simpl in *.
    + injection H as <-. simpl. split; lia.
    + destruct (list_modify i f l) as [r|] eqn:E; cbn [bind] in H; [|discriminate].
      injection H as <-. apply IH in E. simpl. split; lia.
Qed.

Lemma list_modify_map {A B : Type} (g : A -> B) (f : A -> A) (l : list A) :
  (forall x, g (f x) = g x) ->
  forall i l', list_modify i f l = Ok l' -> map g l' = map g l.
Proof.
  intro Hg. induction l as [|x l IH]; intros i l' H.
  - destruct i; discriminate.
  - destruct i as [|i]; simpl in H.
    + injection H as <-. simpl. now rewrite Hg.
    + destruct (list_modify i f l) as [r|e] eqn:E; cbn [bind] in H; [|discriminate].
      injection H as <-. simpl. f_equal. now apply (IH i).
Qed.

Lemma list_modify_nth_error {A : Type} (f : A -> A) (l : list A) :
  forall i l', list_modify i f l = Ok l' ->
    forall j, nth_error l' j
              = if (j =? i)%nat then option_map f (nth_error l j) else nth_error l j.
Proof.
  induction l as [|x l IH]; intros i l' H j.
  - destruct i; discriminate.
  - destruct i as [|i]; simpl in H.
    + injection H as <-. now destruct j.
    + destruct (list_modify i f l) as [r|e] eqn:E; cbn [bind] in H; [|discriminate].
      injection H as <-. destruct j as [|j]; [reflexivity|].
      simpl. now apply IH.
Qed.

Lemma enumerate_columns_names (titles : list string) :
  forall h, map column_name (enumerate_columns h titles) = titles.
Proof. induction titles as [|t rest IH]; intro h; simpl; [|rewrite IH]; reflexivity. Qed.

Lemma enumerate_columns_length (titles : list string) :
  forall h, List.length (enumerate_columns h titles) = List.length titles.
Proof. induction titles as [|t rest IH]; intro h; simpl; auto. Qed.

Lemma enumerate_columns_nth_error (titles : list string) :
  forall h j, j < List.length titles ->
    nth_error (enumerate_columns h titles) j
    = Some {| id := h + j; column_name := nth j titles "";
              totalsRowLabel := None; totalsRowFunction := None |}.
Proof.
  induction titles as [|t rest IH]; intros h j Hj; simpl in Hj; [lia|].
  destruct j as [|j]; simpl.
  - now rewrite Nat.add_0_r.
  - rewrite IH by lia. do 2 f_equal. lia.
Qed.

Lemma list_last_returns {A : Type} (d : A) (l : list A) :
  l <> [] -> list_last l = Ok (last l d).
Proof.
  unfold list_last. destruct l as [|x l] using rev_ind; [congruence|].
  intros _. now rewrite rev_app_distr, last_last.
Qed.

Lemma nth_repeat_blank (n j : nat) : nth j (repeat "" n) "" = "".
Proof.
  revert j. induction n as [|n IH]; intros [|j]; simpl; auto.
Qed.

(** The row that lines 186-188 build, cell by cell. *)
Lemma total_row_spec (keys titles : list string) (table_name : string) :
  1 <= List.length keys -> List.length titles = List.length keys ->
  exists tr,
    total_row keys titles table_name = Ok tr
    /\ List.length tr = List.length keys
    /\ nth (List.length keys - 1) tr ""
       = subtotal_formula table_name (last titles "")
    /\ (2 <= List.length keys -> nth 0 tr "" = "Total")
    /\ (forall j, 0 < j < List.length keys - 1 -> nth j tr "" = "").
Proof.
  intros HK HT. unfold total_row.
  destruct (list_assign_spec "" "Total" (repeat "" (List.length keys)) 0)
    as (l1 & E1 & L1 & N1 & O1); [rewrite repeat_length; lia|].
  rewrite E1. cbn [bind]. rewrite repeat_length in L1.
  rewrite (list_last_returns "") by (destruct titles; simpl in *; [lia | congruence]).
  cbn [bind]. unfold list_assign_last.
  destruct (list_assign_spec ""
              (subtotal_formula table_name (last titles "")) l1
              (List.length l1 - 1))
    as (l2 & E2 & L2 & N2 & O2); [lia|].
  destruct l1 as [|x l1']; [simpl in L1; lia|].
  rewrite E2. exists l2. rewrite L1 in *.
  split; [reflexivity|]. split; [lia|]. split; [exact N2|]. split.
  - intro H2. rewrite O2 by lia. exact N1.
  - intros j Hj. rewrite O2 by lia. rewrite O1 by lia. apply nth_repeat_blank.
Qed.

(** The row of totals is built only on a schema that has a key. *)
Lemma total_row_ok (keys titles : list string) (table_name : string)
    (tr : list string) :
  total_row keys titles table_name = Ok tr ->
  List.length titles = List.length keys ->
  1 <= List.length keys
  /\ List.length tr = List.length keys
  /\ nth (List.length keys - 1) tr ""
     = subtotal_formula table_name (last titles "")
  /\ (2 <= List.length keys -> nth 0 tr "" = "Total")
  /\ (forall j, 0 < j < List.length keys - 1 -> nth j tr "" = "").
Proof.
  intros H HT.
  assert (HK : 1 <= List.length keys).
  { unfold total_row in H.
    destruct (list_assign 0 "Total" (repeat "" (List.length keys))) as [l|] eqn:E;
      [|discriminate].
    apply list_assign_bound in E. rewrite repeat_length in E. lia. }
  destruct (total_row_spec keys titles table_name HK HT) as (tr' & E' & P).
  rewrite H in E'. injection E' as <-. split; [exact HK | exact P].
Qed.

Lemma value_at_cell_of (r c : nat) (wb : workbook) :
  value_at r c wb = option_map value (cell_of r c wb).
Proof. reflexivity. Qed.

Lemma value_at_coords (r c : nat) (wb : workbook) :
  value_at r c wb <> None <-> In (r, c) (coords (sheet wb)).
Proof.
  unfold value_at, coords.
  rewrite <- (get_Some_In coord_eqb coord_eqb_spec).
  destruct (PyDict.get coord_eqb (r, c) (cells (sheet wb))); simpl; split; congruence.
Qed.

(** What [create_workbook] returns, when it returns: the schema then
    has a key and fits the sheet's columns, the rows down to the row
    of totals fit the sheet's rows, and the sheet, the table and the
    anchor are as follows. *)
Lemma create_workbook_ok (key_title : str_dict string)
    (data : list (str_dict pyvalue)) (table_name : string) (wb : workbook) :
  create_workbook key_title data table_name = Ok wb ->
  1 <= List.length key_title
  /\ (N.of_nat (List.length key_title) <= MAX_COLUMN)%N
  /\ (N.of_nat (List.length data + 2) <= MAX_ROW)%N
  /\ exists tr letter tc1 columns,
       total_row (PyDict.keys key_title) (PyDict.values key_title) table_name = Ok tr
       /\ List.length tr = List.length key_title
       /\ get_column_letter (List.length key_title) = Ok letter
       /\ list_modify 0 (set_label "Total")
            (enumerate_columns 1 (PyDict.values key_title)) = Ok tc1
       /\ list_modify_last (set_function "count") tc1 = Ok columns
       /\ tables wb
          = [ {| displayName := table_name;
                 ref := "A1:" ++ letter ++ PyStr.of_nat (List.length data + 2);
                 autoFilter_ref :=
                   "A1:" ++ letter ++ PyStr.of_nat (List.length data + 1);
                 totalsRowShown := true;
                 totalsRowCount := 1;
                 tableColumns := columns |} ]
       /\ (forall j, j < List.length key_title ->
             cell_of (List.length data + 2) (1 + j) wb
             = Some (appended (nth j tr "")))
       /\ (forall r c, In (r, c) (coords (sheet wb))
                       <-> 1 <= r <= List.length data + 2
                           /\ 1 <= c <= List.length key_title)
       /\ (forall i j, i < S (List.length data) -> j < List.length key_title ->
             cell_of (1 + i) (1 + j) wb
             = Some (data_cell
                       (nth i (@cons (str_dict pyvalue)
                                 (map (fun kv => (fst kv, PyStr (snd kv))) key_title)
                                 data) [])
                       (nth j (PyDict.keys key_title) "")))
       /\ activeCell wb = "A" ++ PyStr.of_nat (List.length data + 3)
       /\ sqref wb = activeCell wb.
Proof.
  unfold create_workbook. cbv zeta. intro H.
  set (K := List.length key_title) in *. set (n := List.length data) in *.
  assert (LK : List.length (PyDict.keys key_title) = K)
    by (unfold PyDict.keys; apply length_map).
  assert (LT : List.length (PyDict.values key_title) = K)
    by (unfold PyDict.values; apply length_map).
  destruct (fill_rows _ _ 1 empty_sheet) as [filled|] eqn:EF; cbn [bind] in H; [|discriminate].
  destruct (total_row _ _ table_name) as [tr|] eqn:ET; cbn [bind] in H; [|discriminate].
  destruct (append tr filled) as [sh|] eqn:EA; cbn [bind] in H; [|discriminate].
  destruct (list_modify 0 _ _) as [tc1|] eqn:EC1; cbn [bind] in H; [|discriminate].
  destruct (list_modify_last _ tc1) as [tc2|] eqn:EC2; cbn [bind] in H; [|discriminate].
  destruct (get_column_letter (max_column sh)) as [letter|] eqn:EL;
    cbn [bind] in H; [|discriminate].
  destruct (autosize_columns sh) as [sized|] eqn:ES; cbn [bind] in H; [|discriminate].
  injection H as <-.
  destruct (total_row_ok _ _ _ _ ET) as (HK & LTR & _); [lia|].
  rewrite LK in HK, LTR.
  destruct (fill_rows_ok _ _ _ _ _ EF) as (_ & CF & MF & GF & _);
    [lia | reflexivity |].
  cbn [List.length] in MF, GF. fold n in MF, GF. rewrite LK in MF, GF.
  assert (MFK : forall r c, In (r, c) (coords filled)
                            <-> 1 <= r <= n + 1 /\ 1 <= c <= K).
  { intros r c. rewrite MF. simpl. split.
    - intros [[] | Hk]; lia.
    - intro Hk. right. lia. }
  assert (CR : current_row filled = n + 1).
  { rewrite CF. apply list_max_eq.
    - intros x Hx. apply in_map_iff in Hx. destruct Hx as ([r c] & <- & Hin).
      apply MFK in Hin. simpl. lia.
    - apply in_map_iff. exists (n + 1, 1). split; [reflexivity|].
      apply MFK. lia. }
  unfold append in EA.
  destruct (append_cells _ 1 tr (cells filled)) as [cs|] eqn:ECS;
    cbn [bind] in EA; [|discriminate].
  injection EA as <-.
  destruct (append_cells_ok _ _ _ _ _ ECS) as (MA & GA & OA).
  rewrite CR in MA, GA, OA. replace (n + 1 + 1) with (n + 2) in MA, GA, OA by lia.
  set (sh := {| cells := cs; current_row := current_row filled + 1 |}) in *.
  assert (MS : forall r c, In (r, c) (coords sh)
                           <-> 1 <= r <= n + 2 /\ 1 <= c <= K).
  { intros r c. unfold coords, sh. cbn [cells].
    rewrite MA. fold (coords filled). rewrite MFK, LTR. simpl. lia. }
  assert (NE : coords sh <> []).
  { intro E. assert (Hin : In (1, 1) (coords sh)) by (apply MS; lia).
    rewrite E in Hin. exact Hin. }
  assert (MC : max_column sh = K).
  { rewrite max_column_coords by exact NE. apply list_max_eq.
    - intros x Hx. apply in_map_iff in Hx. destruct Hx as ([r c] & <- & Hin).
      apply MS in Hin. simpl. lia.
    - apply in_map_iff. exists (1, K). split; [reflexivity|]. apply MS. lia. }
  assert (MR : max_row sh = n + 2).
  { rewrite max_row_coords by exact NE. apply list_max_eq.
    - intros x Hx. apply in_map_iff in Hx. destruct Hx as ([r c] & <- & Hin).
      apply MS in Hin. simpl. lia.
    - apply in_map_iff. exists (n + 2, 1). split; [reflexivity|]. apply MS. lia. }
  destruct (autosize_columns_ok sh sized ES) as (SZ & RB).
  { unfold sh. cbn [current_row]. lia. }
  { rewrite MR. lia. }
  { rewrite MC. lia. }
  { intros r c Hr Hc. rewrite MR in Hr. rewrite MC in Hc. apply MS. lia. }
  rewrite MR in RB. rewrite MC in EL.
  destruct (get_column_letter_bounds _ _ EL) as (_ & CB).
  split; [exact HK|]. split; [exact CB|]. split; [exact RB|].
  exists tr, letter, tc1, tc2.
  split; [reflexivity|]. split; [exact LTR|]. split; [exact EL|].
  split; [reflexivity|]. split; [exact EC2|].
  cbn [tables sheet activeCell sqref]. rewrite MR.
  split; [replace (n + 2 - 1) with (n + 1) by lia; reflexivity|].
  split; [|split; [intros r c; cbn [sheet]; rewrite SZ; apply MS|split; [|split]]].
  - intros j Hj. unfold cell_of. cbn [sheet]. rewrite SZ. unfold sh. cbn [cells].
    apply GA. lia.
  - intros i j Hi Hj. unfold cell_of. cbn [sheet]. rewrite SZ. unfold sh. cbn [cells].
    rewrite OA by (left; simpl; lia). apply GF; lia.
  - replace (n + 2 + 1) with (n + 3) by lia. reflexivity.
  - reflexivity.
Qed.

(** C7, amended. Whenever [create_workbook] returns, the schema has at
    least one title and at most as many as the sheet has columns, the
    N records leave room for the row of totals (N+2 rows at most the
    rows of a sheet), and the one table, named as asked, is bound to
    the rectangle from A1 to the K-th column letter and row N+2, its
    autofilter to the same columns down to row N+1; with K = 5 and
    N = 3 these are A1:E5 and A1:E4. *)
Theorem create_workbook_table_ref (key_title : str_dict string)
    (data : list (str_dict pyvalue)) (table_name : string) (wb : workbook) :
  create_workbook key_title data table_name = Ok wb ->
  1 <= List.length key_title
  /\ (N.of_nat (List.length key_title) <= MAX_COLUMN)%N
  /\ (N.of_nat (List.length data + 2) <= MAX_ROW)%N
  /\ map displayName (tables wb) = [table_name]
  /\ exists letter,
       get_column_letter (List.length key_title) = Ok letter
       /\ table_refs wb
          = [("A1:" ++ letter ++ PyStr.of_nat (List.length data + 2),
              "A1:" ++ letter ++ PyStr.of_nat (List.length data + 1))]
       /\ (List.length key_title = 5 -> List.length data = 3 ->
           table_refs wb = [("A1:E5", "A1:E4")]).
Proof.
  intro E.
  destruct (create_workbook_ok _ _ _ _ E)
    as (HK & HC & HR & tr & letter & tc1 & columns & _ & _ & EL & _ & _ & ETab & _).
  split; [exact HK|]. split; [exact HC|]. split; [exact HR|].
  unfold table_refs. rewrite ETab. split; [reflexivity|].
  exists letter. split; [exact EL|]. split; [reflexivity|].
  intros H5 H3. cbn [map ref autoFilter_ref]. rewrite H5 in EL. rewrite H3.
  vm_compute in EL. injection EL as <-. reflexivity.
Qed.

Lemma create_workbook_table_ref_witness :
  exists wb,
    create_workbook Samples.five_columns Samples.three_records "Table" = Ok wb
    /\ 1 <= 5
    /\ (N.of_nat 5 <= MAX_COLUMN)%N
    /\ (N.of_nat (3 + 2) <= MAX_ROW)%N
    /\ map displayName (tables wb) = ["Table"]
    /\ exists letter,
         get_column_letter 5 = Ok letter
         /\ table_refs wb
            = [("A1:" ++ letter ++ PyStr.of_nat (3 + 2),
                "A1:" ++ letter ++ PyStr.of_nat (3 + 1))]
         /\ (5 = 5 -> 3 = 3 -> table_refs wb = [("A1:E5", "A1:E4")]).
Proof.
  destruct (create_workbook Samples.five_columns Samples.three_records "Table")
    as [wb|e] eqn:E.
  - exists wb. split; [reflexivity|].
    exact (create_workbook_table_ref Samples.five_columns Samples.three_records
             "Table" wb E).
  - vm_compute in E. discriminate.
Defined.

(** C7 as stated fails on the schema without titles, the default of
    [key_title]: the call raises IndexError and binds no table; it
    fails as well on a text that the sheet engine refuses. *)
Lemma create_workbook_binds_no_table :
  create_workbook [] Samples.three_records "Table" = Raise IndexError
  /\ create_workbook Samples.one_column [[("State", PyStr (String "001"%char "Alabama"))]]
       "Table"
     = Raise IllegalCharacterError.
Proof. split; reflexivity. Qed.

(** C8, amended. For a schema of at least two titles, whenever
    [create_workbook] returns, the row right below the last data row,
    row N+2, holds "Total" in its first cell, the text
    [=SUBTOTAL(103,table[last title])] in its last cell, cut to the
    greatest length of a cell's text when it is longer, and the empty
    string in every cell between; the sheet has cells in rows 1 to N+2
    and columns 1 to K only; and the table of the name that the formula
    uses is bound to A1 through the K-th column and row N+2, shows its
    one totals row and has the titles as its column names, which
    leaves rows 2 to N+1, the N data rows, to the column the formula
    names. *)
Theorem total_row_cells (key_title : str_dict string)
    (data : list (str_dict pyvalue)) (table_name : string) (wb : workbook) :
  create_workbook key_title data table_name = Ok wb ->
  2 <= List.length key_title ->
  value_at (List.length data + 2) 1 wb = Some (PyStr "Total")
  /\ value_at (List.length data + 2) (List.length key_title) wb
     = Some (PyStr (PyStr.take MAX_TEXT
                      (subtotal_formula table_name
                         (last (PyDict.values key_title) ""))))
  /\ ((N.of_nat (String.length
                   (subtotal_formula table_name
                      (last (PyDict.values key_title) ""))) <= MAX_TEXT)%N ->
      value_at (List.length data + 2) (List.length key_title) wb
      = Some (PyStr (subtotal_formula table_name
                       (last (PyDict.values key_title) ""))))
  /\ (forall c, 1 < c < List.length key_title ->
        value_at (List.length data + 2) c wb = Some (PyStr ""))
  /\ (forall r c, value_at r c wb <> None
                  <-> 1 <= r <= List.length data + 2
                      /\ 1 <= c <= List.length key_title)
  /\ exists letter columns,
       get_column_letter (List.length key_title) = Ok letter
       /\ tables wb
          = [ {| displayName := table_name;
                 ref := "A1:" ++ letter ++ PyStr.of_nat (List.length data + 2);
                 autoFilter_ref :=
                   "A1:" ++ letter ++ PyStr.of_nat (List.length data + 1);
                 totalsRowShown := true;
                 totalsRowCount := 1;
                 tableColumns := columns |} ]
       /\ map column_name columns = PyDict.values key_title.
Proof.
  intros E HK.
  destruct (create_workbook_ok _ _ _ _ E)
    as (_ & _ & _ & tr & letter & tc1 & columns
        & ET & _ & EL & EC1 & EC2 & ETab & EV & EC & _).
  destruct (total_row_ok _ _ _ _ ET) as (_ & _ & Hlast & Hfirst & Hmid);
    [unfold PyDict.keys, PyDict.values; now rewrite !length_map|].
  unfold PyDict.keys in Hlast, Hfirst, Hmid. rewrite length_map in Hlast, Hfirst, Hmid.
  assert (Elast : value_at (List.length data + 2) (List.length key_title) wb
                  = Some (PyStr (PyStr.take MAX_TEXT
                                   (subtotal_formula table_name
                                      (last (PyDict.values key_title) ""))))).
  { replace (List.length key_title) with (1 + (List.length key_title - 1)) at 1 by lia.
    rewrite value_at_cell_of, EV by lia. now rewrite Hlast. }
  split; [|split; [exact Elast|split; [|split; [|split]]]].
  - pose proof (EV 0 ltac:(lia)) as E0. change (1 + 0) with 1 in E0.
    rewrite value_at_cell_of, E0, Hfirst by lia. reflexivity.
  - intro Hlen. rewrite Elast. now rewrite take_all.
  - intros c Hc. replace c with (1 + (c - 1)) by lia.
    rewrite value_at_cell_of, EV by lia. rewrite Hmid by lia. reflexivity.
  - intros r c. rewrite value_at_coords. apply EC.
  - exists letter, columns. split; [exact EL|]. split; [exact ETab|].
    unfold list_modify_last in EC2. destruct tc1 as [|t0 tc1']; [discriminate|].
    rewrite (list_modify_map column_name (set_function "count") _
               (fun x => eq_refl) _ _ EC2).
    rewrite (list_modify_map column_name (set_label "Total") _
               (fun x => eq_refl) _ _ EC1).
    apply enumerate_columns_names.
Qed.

Lemma total_row_cells_witness :
  exists wb,
    create_workbook Samples.five_columns Samples.three_records "Table" = Ok wb
    /\ value_at 5 1 wb = Some (PyStr "Total")
    /\ value_at 5 5 wb = Some (PyStr "=SUBTOTAL(103,Table[Statute])")
    /\ (forall c, 1 < c < 5 -> value_at 5 c wb = Some (PyStr ""))
    /\ (forall r c, value_at r c wb <> None <-> 1 <= r <= 5 /\ 1 <= c <= 5)
    /\ exists columns,
         tables wb
         = [ {| displayName := "Table";
                ref := "A1:E5";
                autoFilter_ref := "A1:E4";
                totalsRowShown := true;
                totalsRowCount := 1;
                tableColumns := columns |} ]
         /\ map column_name columns = PyDict.values Samples.five_columns.
Proof.
  destruct (create_workbook Samples.five_columns Samples.three_records "Table")
    as [wb|e] eqn:E.
  - exists wb. split; [reflexivity|].
    destruct (total_row_cells Samples.five_columns Samples.three_records "Table" wb E)
      as (H1 & H2 & _ & H3 & H4 & letter & columns & EL & ETab & EN);
      [simpl; lia|].
    split; [exact H1|]. split; [exact H2|]. split; [exact H3|]. split; [exact H4|].
    exists columns. split; [|exact EN].
    vm_compute in EL. injection EL as <-. exact ETab.
  - vm_compute in E. discriminate.
Defined.

(** C8 as stated fails on a schema of one column: the only cell of the
    row below the header holds the formula, not "Total". *)
Lemma total_row_label_missing :
  exists wb,
    create_workbook Samples.one_column [] "Table" = Ok wb
    /\ value_at 2 1 wb = Some (PyStr "=SUBTOTAL(103,Table[State])")
    /\ value_at 2 1 wb <> Some (PyStr "Total").
Proof.
  eexists. split; [vm_compute; reflexivity|].
  split; [reflexivity | vm_compute; discriminate].
Qed.




End WorkbookFacts.

(** ** Extraction *)

Module ExtractFacts.

Import Html TaxSaleStates PyDictFacts Notions.

Lemma str_in_In (k : string) (l : list string) : PyStr.str_in k l = true <-> In k l.
Proof.
  unfold PyStr.str_in. rewrite existsb_exists. split.
  - intros (x & Hx & E). apply String.eqb_eq in E. now subst.
  - intro H. exists k. split; [exact H | apply String.eqb_refl].
Qed.

Lemma mem_str_in {V : Type} (k : string) (d : str_dict V) :
  PyDict.mem String.eqb k d = PyStr.str_in k (PyDict.keys d).
Proof.
  destruct (PyStr.str_in k (PyDict.keys d)) eqn:E.
  - apply str_in_In in E. now apply (mem_In String.eqb string_eqb_spec).
  - apply (mem_not_In String.eqb string_eqb_spec). intro H.
    apply str_in_In in H. congruence.
Qed.

Lemma keys_set_first_seen {V : Type} (k : string) (v : V) (d : str_dict V) :
  PyDict.keys (PyDict.set String.eqb k v d) = first_seen_from (PyDict.keys d) [k].
Proof.
  rewrite (keys_set String.eqb), mem_str_in. reflexivity.
Qed.

Lemma first_seen_from_app (seen l1 l2 : list string) :
  first_seen_from seen (l1 ++ l2) = first_seen_from (first_seen_from seen l1) l2.
Proof. apply fold_left_app. Qed.

Lemma keys_update_first_seen {V : Type} (e d : str_dict V) :
  PyDict.keys (PyDict.update String.eqb d e)
  = first_seen_from (PyDict.keys d) (PyDict.keys e).
Proof.
  unfold PyDict.update. revert d. induction e as [|[k v] e IH]; intro d; simpl.
  - reflexivity.
  - rewrite IH, keys_set_first_seen. reflexivity.
Qed.

Lemma In_first_seen_from (seen l : list string) (k : string) :
  In k (first_seen_from seen l) <-> In k seen \/ In k l.
Proof.
  unfold first_seen_from. revert seen. induction l as [|x l IH]; intro seen; simpl.
  - tauto.
  - rewrite IH. destruct (PyStr.str_in x seen) eqn:E.
    + apply str_in_In in E. intuition (subst; auto).
    + rewrite in_app_iff. simpl. intuition (subst; auto).
Qed.

Lemma get_update_other {V : Type} (k : string) (e d : str_dict V) :
  ~ In k (PyDict.keys e) ->
  PyDict.get String.eqb k (PyDict.update String.eqb d e) = PyDict.get String.eqb k d.
Proof.
  unfold PyDict.update. revert d. induction e as [|[k' v] e IH]; intros d H; simpl in *.
  - reflexivity.
  - rewrite IH by tauto.
    apply (get_set_other String.eqb string_eqb_spec). intro E. apply H. now left.
Qed.

Lemma get_update_last {V : Type} (k : string) (v : V) (e1 e2 d : str_dict V) :
  ~ In k (PyDict.keys e2) ->
  PyDict.get String.eqb k (PyDict.update String.eqb d (e1 ++ (k, v) :: e2)%list)
  = Some v.
Proof.
  intro H. unfold PyDict.update. rewrite fold_left_app. simpl.
  fold (PyDict.update String.eqb
          (PyDict.set String.eqb k v
             (fold_left (fun acc kv => PyDict.set String.eqb (fst kv) (snd kv) acc) e1 d))
          e2).
  rewrite get_update_other by exact H.
  apply (get_set_same String.eqb string_eqb_spec).
Qed.

Section Model.
Variable key_title : str_dict string.

Lemma add_missing_keys_keys (row : record) :
  PyDict.keys (add_missing_keys key_title row)
  = first_seen_from (PyDict.keys row) (titles key_title).
Proof.
  unfold add_missing_keys, first_seen_from.
  generalize (titles key_title) as ts. intro ts. revert row.
  induction ts as [|t ts IH]; intro row; simpl.
  - reflexivity.
  - rewrite IH. f_equal. rewrite mem_str_in.
    destruct (PyStr.str_in t (PyDict.keys row)) eqn:E; simpl.
    + reflexivity.
    + rewrite (keys_set String.eqb), mem_str_in, E. reflexivity.
Qed.

Lemma item_display_keys (state description : string) (table_items : record) :
  PyDict.keys (item_display state table_items description)
  = first_seen ("State" :: PyDict.keys table_items ++ ["Description"]).
Proof.
  unfold item_display, first_seen.
  rewrite keys_set_first_seen, keys_update_first_seen.
  change ("State" :: PyDict.keys table_items ++ ["Description"])%list
    with (["State"] ++ PyDict.keys table_items ++ ["Description"])%list.
  rewrite !first_seen_from_app. reflexivity.
Qed.

(** The keys of a record, in order. *)
Lemma item_keys (state description : string) (table_items : record) :
  PyDict.keys (add_missing_keys key_title (item_display state table_items description))
  = first_seen
      ("State" :: PyDict.keys table_items ++ ["Description"] ++ titles key_title).
Proof.
  rewrite add_missing_keys_keys, item_display_keys. unfold first_seen.
  change ("State" :: PyDict.keys table_items ++ ["Description"] ++ titles key_title)%list
    with (("State" :: PyDict.keys table_items) ++ ["Description"] ++ titles key_title)%list.
  rewrite app_assoc, first_seen_from_app. reflexivity.
Qed.

End Model.

(** *** The table step *)

Section Table.
Variable key_title : str_dict string.

Import TableSpec.

Lemma length_leb_0 (s : string) : (String.length s <=? 0)%nat = (s =? "").
Proof. now destruct s. Qed.

Lemma parse_table_row_entry (result : record) (row : node) :
  parse_table_row key_title result row
  = match row_entry key_title row with
    | Some (title, value) => PyDict.set String.eqb title value result
    | None => result
    end.
Proof.
  unfold parse_table_row, row_entry, row_cells.
  destruct (select_tag "td" row) as [|cell1 [|cell2 more]]; try reflexivity.
  cbn [List.length Nat.ltb Nat.leb nth]. rewrite !length_leb_0.
  fold (raw_key cell1). fold (cell_value cell2).
  destruct ((raw_key cell1 =? "") && (cell_value cell2 =? "")); [reflexivity|].
  unfold canonical_title, PyDict.mem.
  now destruct (PyDict.get String.eqb (raw_key cell1) key_title).
Qed.

Lemma parse_table_rows_from (rows : list node) (result : record) :
  fold_left (parse_table_row key_title) rows result
  = PyDict.update String.eqb result
      (flat_map
         (fun row => match row_entry key_title row with
                     | Some e => [e]
                     | None => []
                     end) rows).
Proof.
  revert result. induction rows as [|row rows IH]; intro result; simpl.
  - reflexivity.
  - rewrite IH, parse_table_row_entry. unfold PyDict.update.
    rewrite fold_left_app.
    now destruct (row_entry key_title row) as [[title value]|].
Qed.

Lemma parse_table_refines (table : node) :
  parse_table key_title table = spec_parse_table key_title table.
Proof. apply parse_table_rows_from. Qed.

End Table.

(** *** The loop of parse *)

Section Loop.
Variable key_title : str_dict string.

Lemma parse_loop_ok (headings : list node) (pairs : list (node * option node)) :
  forall (i : nat) (items out : list record),
    i <= List.length headings ->
    parse_loop key_title headings pairs i items = Ok out ->
    i + List.length pairs <= List.length headings
    /\ Forall paired pairs
    /\ exists new,
         out = (items ++ new)%list
         /\ List.length new = List.length pairs
         /\ (forall j r, nth_error new j = Some r ->
               exists h t n,
                 nth_error headings (i + j) = Some h
                 /\ nth_error pairs j = Some (t, Some n)
                 /\ r = item_of key_title h t n).
Proof.
  induction pairs as [|[table notes] rest IH]; intros i items out Hi0 H; simpl in H.
  - injection H as <-. split; [simpl; lia|]. split; [constructor|].
    exists []. rewrite app_nil_r. repeat split.
    intros [|j] r Hj; discriminate.
  - destruct (nth_error headings i) as [h|] eqn:Eh; cbn [bind] in H; [|discriminate].
    destruct notes as [n|]; cbn [bind] in H; [|discriminate].
    assert (Hi : i < List.length headings)
      by (apply nth_error_Some; congruence).
    apply IH in H; [|lia]. destruct H as (Hlen & Hall & new & -> & Lnew & Hnth).
    split; [simpl; lia|]. split; [constructor; [unfold paired; simpl; congruence | exact Hall]|].
    exists (item_of key_title h table n :: new). split; [now rewrite <- app_assoc|].
    split; [simpl; lia|].
    intros [|j] r Hj; simpl in Hj.
    + injection Hj as <-. exists h, table, n.
      rewrite Nat.add_0_r. repeat split; auto.
    + destruct (Hnth j r Hj) as (h' & t' & n' & H1 & H2 & H3).
      exists h', t', n'. replace (i + S j) with (S i + j) by lia. auto.
Qed.

Lemma parse_loop_returns (headings : list node) (pairs : list (node * option node)) :
  forall (i : nat) (items : list record),
    i + List.length pairs <= List.length headings ->
    Forall paired pairs ->
    exists out,
      parse_loop key_title headings pairs i items = Ok out
      /\ List.length out = List.length items + List.length pairs.
Proof.
  induction pairs as [|[table notes] rest IH]; intros i items Hlen Hall; simpl.
  - exists items. split; [reflexivity | lia].
  - simpl in Hlen. inversion Hall as [|? ? Hp Hrest]; subst.
    destruct (nth_error headings i) as [h|] eqn:Eh.
    2:{ apply nth_error_None in Eh. lia. }
    destruct notes as [n|]; [|unfold paired in Hp; simpl in Hp; congruence].
    cbn [bind].
    match goal with
    | |- context [parse_loop _ _ rest (S i) ?acc] =>
        destruct (IH (S i) acc) as (out & E & L); [lia | exact Hrest |]
    end.
    exists out. split; [exact E|]. rewrite L, length_app. simpl. lia.
Qed.

Lemma parse_loop_index_error (headings : list node)
    (pairs : list (node * option node)) :
  forall (i : nat) (items : list record),
    Forall paired (removelast pairs) ->
    i <= List.length headings < i + List.length pairs ->
    parse_loop key_title headings pairs i items = Raise IndexError.
Proof.
  induction pairs as [|[table notes] rest IH]; intros i items Hall Hi.
  - simpl in Hi. lia.
  - cbn [parse_loop]. destruct (nth_error headings i) as [h|] eqn:Eh; [|reflexivity].
    assert (Hlt : i < List.length headings) by (apply nth_error_Some; congruence).
    cbn [bind]. destruct rest as [|p rest']; [simpl in Hi; lia|].
    cbn [removelast] in Hall. inversion Hall as [|? ? Hp Hrest]; subst.
    destruct notes as [n|]; [|unfold paired in Hp; simpl in Hp; congruence].
    cbn [bind]. apply IH; [exact Hrest | simpl in *; lia].
Qed.

Lemma parse_loop_attribute_error (headings : list node)
    (pairs : list (node * option node)) :
  forall (i : nat) (items : list record),
    i + List.length pairs <= List.length headings ->
    ~ Forall paired pairs ->
    parse_loop key_title headings pairs i items = Raise AttributeError.
Proof.
  induction pairs as [|[table notes] rest IH]; intros i items Hi Hall.
  - exfalso. apply Hall. constructor.
  - cbn [parse_loop]. simpl in Hi.
    destruct (nth_error headings i) as [h|] eqn:Eh.
    2:{ apply nth_error_None in Eh. lia. }
    cbn [bind]. destruct notes as [n|]; [|reflexivity].
    cbn [bind]. apply IH; [lia|].
    intro H. apply Hall. constructor; [unfold paired; simpl; congruence | exact H].
Qed.

End Loop.

(** *** zip_longest over one iterator *)

Lemma zip_longest_pairs_facts (l : list node) :
  (List.length l = 2 * List.length (zip_longest_pairs l)
   \/ List.length l + 1 = 2 * List.length (zip_longest_pairs l))
  /\ (Forall paired (zip_longest_pairs l)
      <-> List.length l = 2 * List.length (zip_longest_pairs l))
  /\ (forall j t n, nth_error (zip_longest_pairs l) j = Some (t, n) ->
        nth_error l (2 * j) = Some t).
Proof.
  assert (G : forall m l, List.length l <= m ->
    (List.length l = 2 * List.length (zip_longest_pairs l)
     \/ List.length l + 1 = 2 * List.length (zip_longest_pairs l))
    /\ (Forall paired (zip_longest_pairs l)
        <-> List.length l = 2 * List.length (zip_longest_pairs l))
    /\ (forall j t n, nth_error (zip_longest_pairs l) j = Some (t, n) ->
          nth_error l (2 * j) = Some t)).
  { clear l. induction m as [|m IH]; intros l Hl.
    - destruct l; [|simpl in Hl; lia]. simpl. repeat split; auto.
      intros [|j] t n H; discriminate.
    - destruct l as [|a [|b l]].
      + simpl. repeat split; auto. intros [|j] t n H; discriminate.
      + simpl. split; [right; reflexivity|]. split.
        * split; [|lia]. intro H. inversion H as [|? ? Hp _]; subst.
          unfold paired in Hp. simpl in Hp. congruence.
        * intros [|[|j]] t n H; simpl in H; try discriminate.
          now injection H as <- <-.
      + destruct (IH l) as (Hlen & Hall & Hnth); [simpl in Hl; lia|].
        cbn [zip_longest_pairs List.length]. split; [lia|]. split.
        * split.
          -- intro H. inversion H as [|? ? _ Hrest]; subst.
             apply Hall in Hrest. lia.
          -- intro H. constructor; [unfold paired; simpl; congruence|].
             apply Hall. lia.
        * intros [|j] t n H.
          -- simpl in H. now injection H as <- <-.
          -- simpl in H. apply Hnth in H.
             replace (2 * S j) with (S (S (2 * j))) by lia. exact H. }
  apply (G (List.length l)). lia.
Qed.

Lemma zip_longest_pairs_front (l : list node) :
  Forall paired (removelast (zip_longest_pairs l)).
Proof.
  assert (G : forall m l, List.length l <= m ->
                          Forall paired (removelast (zip_longest_pairs l))).
  { clear l. induction m as [|m IH]; intros l Hl.
    - destruct l; [constructor | simpl in Hl; lia].
    - destruct l as [|a [|b l]]; try constructor.
      cbn [zip_longest_pairs].
      pose proof (IH l ltac:(simpl in Hl; lia)) as Hrest.
      destruct (zip_longest_pairs l) as [|p ps] eqn:E; [constructor|].
      change (removelast ((a, Some b) :: p :: ps))
        with ((a, Some b) :: removelast (p :: ps)).
      constructor; [unfold paired; simpl; congruence | exact Hrest]. }
  apply (G (List.length l)). lia.
Qed.

(** *** The claims on extraction *)

Section Claims.
Variable key_title : str_dict string.

Import TableSpec.

Lemma parse_items (doc : soup) (items : list record) :
  parse key_title doc = Ok items ->
  List.length (table_notes doc) = 2 * List.length items
  /\ List.length items <= List.length (state_headings doc)
  /\ (forall j r, nth_error items j = Some r ->
        exists h t n,
          nth_error (table_notes doc) (2 * j) = Some t
          /\ r = item_of key_title h t n).
Proof.
  unfold parse. intro H.
  apply parse_loop_ok in H; [|lia].
  destruct H as (Hlen & Hall & new & E & Lnew & Hnth). simpl in E. subst new.
  destruct (zip_longest_pairs_facts (table_notes doc)) as (_ & Hpaired & Hzip).
  apply Hpaired in Hall. rewrite Lnew.
  split; [exact Hall|]. split; [simpl in Hlen; lia|].
  intros j r Hj. destruct (Hnth j r Hj) as (h & t & n & _ & Hp & ->).
  exists h, t, n. split; [now apply (Hzip j t (Some n)) | reflexivity].
Qed.

Lemma item_of_has_titles (h t n : node) (title : string) :
  In title (titles key_title) ->
  PyDict.mem String.eqb title (item_of key_title h t n) = true.
Proof.
  intro H. apply (mem_In String.eqb string_eqb_spec).
  unfold item_of. rewrite item_keys. unfold first_seen.
  apply In_first_seen_from. right. right.
  apply in_or_app. right. apply in_or_app. now right.
Qed.

(** C1, amended. When extraction returns, it returns one record for
    every (table, notes) pair: twice as many content nodes were
    selected as there are records, the headings found are at least as
    many as the records (and as many exactly when every heading has
    its pair), and every record has every schema title as a key. *)
Theorem parse_one_record_per_pair (doc : soup) (items : list record) :
  parse key_title doc = Ok items ->
  List.length (table_notes doc) = 2 * List.length items
  /\ List.length items <= List.length (state_headings doc)
  /\ (List.length items = List.length (state_headings doc)
      <-> List.length (table_notes doc) = 2 * List.length (state_headings doc))
  /\ Forall
       (fun r => forall title, In title (titles key_title) ->
                               PyDict.mem String.eqb title r = true)
       items.
Proof.
  intro H. destruct (parse_items doc items H) as (HT & HH & Hnth).
  split; [exact HT|]. split; [exact HH|]. split; [lia|].
  apply Forall_forall. intros r Hr title Ht.
  apply In_nth_error in Hr. destruct Hr as (j & Hj).
  destruct (Hnth j r Hj) as (h & t & n & _ & ->).
  now apply item_of_has_titles.
Qed.

(** C2, amended. The keys of the j-th record are, in this order and
    each once: "State", the titles of the rows of its table (the
    content node 2j) in table order, "Description", and then the
    schema titles not seen before, in schema order. So every schema
    title is a key, every other key is "State", "Description" or a
    label of the table, and the key set is the schema's title set when
    "State", "Description" and all labels of the table are schema
    titles. *)
Theorem parse_record_keys (doc : soup) (items : list record) :
  parse key_title doc = Ok items ->
  forall j r, nth_error items j = Some r ->
    exists table,
      nth_error (table_notes doc) (2 * j) = Some table
      /\ PyDict.keys r
         = first_seen
             ("State" :: PyDict.keys (parse_table key_title table)
              ++ ["Description"] ++ titles key_title)
      /\ (forall title, In title (titles key_title) -> In title (PyDict.keys r))
      /\ (forall k, In k (PyDict.keys r) ->
            k = "State" \/ k = "Description" \/ In k (titles key_title)
            \/ In k (PyDict.keys (parse_table key_title table)))
      /\ (In "State" (titles key_title) ->
          In "Description" (titles key_title) ->
          incl (PyDict.keys (parse_table key_title table)) (titles key_title) ->
          forall k, In k (PyDict.keys r) <-> In k (titles key_title)).
Proof.
  intros H j r Hj. destruct (parse_items doc items H) as (_ & _ & Hnth).
  destruct (Hnth j r Hj) as (h & t & n & Ht & ->).
  exists t. split; [exact Ht|]. unfold item_of. rewrite item_keys.
  split; [reflexivity|].
  assert (M : forall k,
             In k (first_seen
                     ("State" :: PyDict.keys (parse_table key_title t)
                      ++ ["Description"] ++ titles key_title))
             <-> k = "State" \/ In k (PyDict.keys (parse_table key_title t))
                 \/ k = "Description" \/ In k (titles key_title)).
  { intro k. unfold first_seen. rewrite In_first_seen_from. simpl.
    rewrite !in_app_iff. simpl. intuition (subst; auto). }
  split; [intros title Hin; apply M; tauto|].
  split; [intros k Hk; apply M in Hk; tauto|].
  intros HS HD HI k. rewrite M. split; [|tauto].
  intros [-> | [Hk | [-> | Hk]]]; auto.
Qed.

(** A tree without table or notes nodes gives the empty sequence,
    whatever headings it has; a tree with 2p such nodes and at least p
    headings gives p records. *)
Lemma parse_tree_returns (doc : soup) :
  (table_notes doc = [] -> parse key_title doc = Ok [])
  /\ (forall p, List.length (table_notes doc) = 2 * p ->
                p <= List.length (state_headings doc) ->
                exists items, parse key_title doc = Ok items
                              /\ List.length items = p).
Proof.
  split.
  - intro H. unfold parse. now rewrite H.
  - intros p HT HH. unfold parse.
    destruct (zip_longest_pairs_facts (table_notes doc)) as (Hlen & Hpaired & _).
    destruct (parse_loop_returns key_title (state_headings doc)
                (zip_longest_pairs (table_notes doc)) 0 [])
      as (out & E & L).
    + simpl. lia.
    + apply Hpaired. lia.
    + exists out. split; [exact E|]. simpl in L. lia.
Qed.

(** Markup that the parser rejects makes [parse] raise what the parser
    raises. *)
Lemma parse_markup_rejected (html_parser : string -> result soup)
    (markup : string) (e : exn) :
  html_parser markup = Raise e ->
  parse_markup key_title html_parser markup = Raise e.
Proof. intro H. unfold parse_markup. now rewrite H. Qed.

(** C4, amended. On markup that the HTML parser accepts: when the tree
    it hands over has no table or notes nodes, extraction returns the
    empty sequence, whatever headings it has; when the tree has 2p
    such nodes and at least p headings, extraction returns p records,
    fewer than the headings when p is smaller. Neither raises. *)
Theorem parse_returns_on_pairs (html_parser : string -> result soup)
    (markup : string) (doc : soup) :
  html_parser markup = Ok doc ->
  (table_notes doc = [] -> parse_markup key_title html_parser markup = Ok [])
  /\ (forall p, List.length (table_notes doc) = 2 * p ->
                p <= List.length (state_headings doc) ->
                exists items, parse_markup key_title html_parser markup = Ok items
                              /\ List.length items = p).
Proof.
  intro H. unfold parse_markup. rewrite H. cbn [bind].
  exact (parse_tree_returns doc).
Qed.

(** Markup with an odd number of table and notes nodes never returns. *)
Lemma parse_odd_never_returns (doc : soup) (items : list record) :
  Nat.odd (List.length (table_notes doc)) = true ->
  parse key_title doc <> Ok items.
Proof.
  intros Hodd H. apply parse_items in H. destruct H as (HT & _).
  rewrite HT, Nat.odd_mul in Hodd. discriminate.
Qed.

(** How [parse] ends when it does not return: the heading lookup
    fails first when the headings are fewer than the pairs; otherwise
    an odd number of content nodes fails at the notes of the last
    pair. *)
Lemma parse_raises (doc : soup) :
  let pairs := zip_longest_pairs (table_notes doc) in
  (List.length (state_headings doc) < List.length pairs ->
   parse key_title doc = Raise IndexError)
  /\ (List.length pairs <= List.length (state_headings doc) ->
      List.length (table_notes doc) <> 2 * List.length pairs ->
      parse key_title doc = Raise AttributeError).
Proof.
  cbv zeta. unfold parse. split.
  - intro H. apply parse_loop_index_error; [apply zip_longest_pairs_front | lia].
  - intros HH HT. apply parse_loop_attribute_error; [simpl; lia|].
    intro Hall.
    destruct (zip_longest_pairs_facts (table_notes doc)) as (_ & Hpaired & _).
    apply Hpaired in Hall. contradiction.
Qed.

(** C5. [parse_table] is the mapping made of the entries of the rows
    that count: a row counts when it has at least two cells and its
    key and value are not both empty; its key is cell 1's trimmed text
    without trailing colons, mapped through the schema or passed
    through, its value is cell 2's trimmed text. The titles of the
    result are those of the entries, and a title holds the value of
    its last entry. Of a one-cell row, a row of two empty cells and a
    Frequency row only the last gives an entry. *)
Theorem parse_table_rows (table : node) :
  parse_table key_title table = spec_parse_table key_title table
  /\ (forall title,
        In title (PyDict.keys (parse_table key_title table))
        <-> exists value, In (title, value) (table_entries key_title table))
  /\ (forall before title value after,
        table_entries key_title table = (before ++ (title, value) :: after)%list ->
        ~ In title (map fst after) ->
        PyDict.get String.eqb title (parse_table key_title table) = Some value)
  /\ parse_table KEY_TITLE Samples.frequency_table = [("Frequency", "Annual")]
  /\ row_entry KEY_TITLE (Samples.tr [Samples.td "Frequency"; Samples.td "Annual"])
     = Some ("Frequency", "Annual")
  /\ row_entry KEY_TITLE
       (Samples.tr [Samples.td " Bidding Process: "; Samples.td "Premium bid"])
     = Some ("Bidding process", "Premium bid")
  /\ row_entry KEY_TITLE (Samples.tr [Samples.td "County fee::"; Samples.td " 5"])
     = Some ("County fee", "5")
  /\ row_entry KEY_TITLE (Samples.tr [Samples.td "Only one cell"]) = None
  /\ row_entry KEY_TITLE (Samples.tr [Samples.td ""; Samples.td "  "]) = None
  /\ row_entry KEY_TITLE (Samples.tr [Samples.td ":"; Samples.td ""]) = None.
Proof.
  split; [apply parse_table_refines|].
  rewrite parse_table_refines. unfold spec_parse_table.
  split; [|split].
  - intro title. rewrite (keys_update String.eqb string_eqb_spec). simpl.
    unfold PyDict.keys. rewrite in_map_iff. split.
    + intros [[] | ([t v] & <- & H)]. now exists v.
    + intros (v & H). right. now exists (title, v).
  - intros before title value after E Hafter. rewrite E.
    now apply get_update_last.
  - repeat split; reflexivity.
Qed.

End Claims.

Lemma parse_one_record_per_pair_witness :
  parse KEY_TITLE Samples.two_headings_one_pair = Ok [Samples.alabama_record]
  /\ List.length (table_notes Samples.two_headings_one_pair) = 2 * 1
  /\ 1 <= List.length (state_headings Samples.two_headings_one_pair)
  /\ (1 = List.length (state_headings Samples.two_headings_one_pair)
      <-> List.length (table_notes Samples.two_headings_one_pair)
          = 2 * List.length (state_headings Samples.two_headings_one_pair))
  /\ Forall
       (fun r => forall title, In title (titles KEY_TITLE) ->
                               PyDict.mem String.eqb title r = true)
       [Samples.alabama_record].
Proof.
  split; [reflexivity|].
  apply (parse_one_record_per_pair KEY_TITLE Samples.two_headings_one_pair
           [Samples.alabama_record]).
  reflexivity.
Defined.

(** C1 as stated fails on markup with a heading and no table or notes:
    extraction returns no record, one heading is found. *)
Lemma parse_length_not_headings :
  parse KEY_TITLE Samples.heading_only = Ok []
  /\ List.length (state_headings Samples.heading_only) = 1
  /\ List.length (@nil record) <> List.length (state_headings Samples.heading_only).
Proof. repeat split. vm_compute. discriminate. Qed.

Lemma parse_record_keys_witness :
  exists table,
    nth_error (table_notes Samples.two_headings_one_pair) (2 * 0) = Some table
    /\ PyDict.keys Samples.alabama_record
       = first_seen
           ("State" :: PyDict.keys (parse_table KEY_TITLE table)
            ++ ["Description"] ++ titles KEY_TITLE)
    /\ (forall title, In title (titles KEY_TITLE) ->
                      In title (PyDict.keys Samples.alabama_record))
    /\ (forall k, In k (PyDict.keys Samples.alabama_record) ->
          k = "State" \/ k = "Description" \/ In k (titles KEY_TITLE)
          \/ In k (PyDict.keys (parse_table KEY_TITLE table)))
    /\ (In "State" (titles KEY_TITLE) ->
        In "Description" (titles KEY_TITLE) ->
        incl (PyDict.keys (parse_table KEY_TITLE table)) (titles KEY_TITLE) ->
        forall k, In k (PyDict.keys Samples.alabama_record) <-> In k (titles KEY_TITLE)).
Proof.
  apply (parse_record_keys KEY_TITLE Samples.two_headings_one_pair
           [Samples.alabama_record] eq_refl 0 Samples.alabama_record eq_refl).
Defined.

(** C2 as stated fails on a table with a label outside the schema and
    rows out of schema order: the record has the key "County fee",
    which is no schema title, and "Statute" comes before "Type". *)
Lemma parse_record_keys_differ :
  parse KEY_TITLE Samples.two_headings_one_pair = Ok [Samples.alabama_record]
  /\ In "County fee" (PyDict.keys Samples.alabama_record)
  /\ ~ In "County fee" (titles KEY_TITLE)
  /\ PyDict.keys Samples.alabama_record
     = [ "State"; "Statute"; "County fee"; "Bidding process"; "Description";
         "Type"; "Frequency"; "Interest rate / penalty"; "Redemption period";
         "Online auction"; "Over the counter"; "Notes" ]
  /\ PyDict.keys Samples.alabama_record <> titles KEY_TITLE.
Proof.
  split; [reflexivity|]. split; [simpl; tauto|].
  split; [simpl; intuition discriminate|].
  split; [reflexivity | vm_compute; discriminate].
Qed.

(** C3. On one heading, one table and no notes the notes side is
    [None] and reading its text raises. *)
Theorem parse_odd_content_raises :
  List.length (table_notes Samples.odd_content) = 1
  /\ List.length (state_headings Samples.odd_content) = 1
  /\ zip_longest_pairs (table_notes Samples.odd_content)
     = [(Samples.table_widget
           [Samples.tr [Samples.td "Type:"; Samples.td "Lien"]], None)]
  /\ parse KEY_TITLE Samples.odd_content = Raise AttributeError.
Proof. repeat split. Qed.

Lemma parse_returns_on_pairs_witness :
  (Samples.two_page_parser "headings" = Ok Samples.heading_only
   /\ table_notes Samples.heading_only = []
   /\ parse_markup KEY_TITLE Samples.two_page_parser "headings" = Ok [])
  /\ (Samples.two_page_parser "page" = Ok Samples.two_headings_one_pair
      /\ List.length (table_notes Samples.two_headings_one_pair) = 2 * 1
      /\ 1 <= List.length (state_headings Samples.two_headings_one_pair)
      /\ exists items,
           parse_markup KEY_TITLE Samples.two_page_parser "page" = Ok items
           /\ List.length items = 1).
Proof.
  split.
  - split; [reflexivity|]. split; [reflexivity|].
    apply (proj1 (parse_returns_on_pairs KEY_TITLE Samples.two_page_parser
                    "headings" Samples.heading_only eq_refl)).
    reflexivity.
  - split; [reflexivity|]. split; [reflexivity|]. split; [simpl; lia|].
    apply (proj2 (parse_returns_on_pairs KEY_TITLE Samples.two_page_parser
                    "page" Samples.two_headings_one_pair eq_refl) 1).
    + reflexivity.
    + simpl. lia.
Defined.

(** C4 as stated fails on markup with a table and its notes under no
    heading: the heading lookup raises, whatever parser handed over
    the tree. *)
Lemma parse_raises_without_heading :
  state_headings Samples.pair_only = []
  /\ List.length (table_notes Samples.pair_only) = 2
  /\ parse KEY_TITLE Samples.pair_only = Raise IndexError
  /\ parse_markup KEY_TITLE (fun _ => Ok Samples.pair_only) "pair" = Raise IndexError.
Proof. repeat split. Qed.

End ExtractFacts.

(** * Further properties of the source *)

(** ** The theme patch *)

Module ThemeMore.

Import PyStr PyStrFacts Theme Notions MoreNotions ThemeFacts.

Lemma length_append (s t : string) :
  String.length (s ++ t) = String.length s + String.length t.
Proof. induction s as [|c s IH]; simpl; [reflexivity | now rewrite IH]. Qed.

Section Rules.
Variable a : ascii.
Variable n : nat.

Lemma replace_length_bounded (ob nb : string) :
  String.length ob = String.length nb ->
  forall m s, String.length s <= m ->
    String.length (replace (String a ob) (String a nb) s) = String.length s.
Proof.
  intro Hlen. induction m as [|m IH]; intros s Hs.
  - destruct s; [reflexivity | simpl in Hs; lia].
  - destruct s as [|c s]; [reflexivity|]. simpl in Hs.
    destruct (Ascii.eqb_spec c a) as [->|Hc].
    + rewrite replace_cons_marker. destruct (prefix ob s) eqn:Hp.
      * apply prefix_split in Hp.
        assert (Hs' : String.length s
                      = String.length ob + String.length (drop (String.length ob) s)).
        { rewrite Hp at 1. apply length_append. }
        simpl. rewrite length_append, IH by lia. lia.
      * simpl. rewrite IH by lia. reflexivity.
    + rewrite replace_cons_other by exact Hc. simpl. rewrite IH by lia. reflexivity.
Qed.

Lemma apply_rules_length (rs : list (string * string)) :
  shaped a n rs ->
  forall s, String.length (apply_rules a rs s) = String.length s.
Proof.
  induction rs as [|r rs IH]; intros Hsh s.
  - reflexivity.
  - inversion Hsh as [|r0 rs0 (Lo & Ln & _) Hsh']; subst r0 rs0.
    simpl. rewrite IH by exact Hsh'.
    apply (replace_length_bounded (fst r) (snd r)) with (m := String.length s); lia.
Qed.

Lemma contains_append_free (ob b t : string) :
  has_char a b = false -> contains (String a ob) (b ++ t) = contains (String a ob) t.
Proof.
  induction b as [|c b IH]; intro H.
  - reflexivity.
  - apply has_char_cons in H. destruct H as [Hc Hb].
    simpl. destruct (ascii_dec a c) as [E|_]; [congruence|].
    simpl. now apply IH.
Qed.

Lemma apply_rules_no_old_bounded (rs : list (string * string)) :
  shaped a n rs -> separated rs ->
  forall r, In r rs ->
  forall m s, String.length s <= m ->
    contains (String a (fst r)) (apply_rules a rs s) = false.
Proof.
  intros Hsh Hsep r Hr.
  pose proof Hsh as Hall. unfold shaped in Hall. rewrite Forall_forall in Hall.
  induction m as [|m IH]; intros s Hs.
  - destruct s; [|simpl in Hs; lia]. now rewrite apply_rules_empty.
  - destruct s as [|c s]; [now rewrite apply_rules_empty|]. simpl in Hs.
    destruct (Ascii.eqb_spec c a) as [->|Hc].
    + rewrite (apply_rules_marker a n rs Hsh Hsep s).
      destruct (find (matching s) rs) as [r0|] eqn:Hf.
      * apply find_some in Hf. destruct Hf as [Hin0 _].
        destruct (Hall r0 Hin0) as (_ & Ln0 & _ & Fn0).
        destruct (Hall r Hr) as (Lo & _).
        cbn [contains]. cbn [prefix].
        destruct (ascii_dec a a) as [_|N]; [|congruence].
        rewrite prefix_append_short by lia.
        rewrite (Hsep r0 r Hin0 Hr). cbn [orb].
        rewrite contains_append_free by exact Fn0.
        apply IH. pose proof (length_drop_le n s). lia.
      * cbn [contains]. cbn [prefix].
        destruct (ascii_dec a a) as [_|N]; [|congruence].
        destruct (Hall r Hr) as (_ & _ & Fo & _).
        rewrite prefix_apply_rules_free by exact Fo.
        pose proof (find_none _ _ Hf r Hr) as Hno. unfold matching in Hno.
        rewrite Hno. cbn [orb]. apply IH. lia.
    + rewrite apply_rules_cons_other by exact Hc.
      cbn [contains]. cbn [prefix].
      destruct (ascii_dec a c) as [E|_]; [congruence|].
      cbn [orb]. apply IH. lia.
Qed.

Lemma replace_absent (ob nb s : string) :
  contains (String a ob) s = false ->
  replace (String a ob) (String a nb) s = s.
Proof.
  induction s as [|c s IH]; intro H.
  - reflexivity.
  - cbn [contains] in H. apply orb_false_iff in H. destruct H as [Hp Hc].
    destruct (Ascii.eqb_spec c a) as [->|Hne].
    + rewrite replace_cons_marker. cbn [prefix] in Hp.
      destruct (ascii_dec a a) as [_|N]; [|congruence].
      rewrite Hp. now rewrite IH.
    + rewrite replace_cons_other by exact Hne. now rewrite IH.
Qed.

Lemma apply_rules_absent (rs : list (string * string)) (s : string) :
  (forall r, In r rs -> contains (String a (fst r)) s = false) ->
  apply_rules a rs s = s.
Proof.
  induction rs as [|r rs IH]; intro H.
  - reflexivity.
  - simpl. rewrite replace_absent by (apply H; now left).
    apply IH. intros r' Hr'. apply H. now right.
Qed.

End Rules.

Lemma val_attr_after_v (hex : string) : val_attr hex = String "v" (after_v hex).
Proof. reflexivity. Qed.

Lemma color_rule_of (old : string) :
  In old (map fst color) ->
  exists r, In r color_rules /\ fst r = after_v old.
Proof.
  intro H. apply in_map_iff in H. destruct H as (kv & <- & Hkv).
  exists (after_v (fst kv), after_v (snd kv)). split; [|reflexivity].
  unfold color_rules. apply in_map_iff. now exists kv.
Qed.

(** X1. The patch never changes the length of the theme text: every
    colour is replaced by one of the same length. *)
Theorem patch_xml_length (xml : string) :
  String.length (patch_xml xml) = String.length xml.
Proof.
  rewrite patch_xml_rules.
  apply (apply_rules_length "v" 11). exact color_rules_shaped.
Qed.

Lemma color_rules_clean (xml : string) (r : string * string) :
  In r color_rules ->
  contains (String "v" (fst r)) (apply_rules "v" color_rules xml) = false.
Proof.
  intro Hr.
  apply (apply_rules_no_old_bounded "v" 11 color_rules
           color_rules_shaped color_rules_separated r Hr
           (String.length xml)).
  lia.
Qed.

(** X2. After the patch none of the ten old colour attributes occurs
    anywhere in the theme text. *)
Theorem patch_xml_no_old_color (xml old : string) :
  In old (map fst color) ->
  contains (val_attr old) (patch_xml xml) = false.
Proof.
  intro H. destruct (color_rule_of old H) as (r & Hr & E).
  rewrite val_attr_after_v, <- E, patch_xml_rules.
  now apply color_rules_clean.
Qed.

Lemma patch_xml_no_old_color_witness :
  contains (val_attr "4F81BD")
    (patch_xml ("<a val=" ++ dquote ++ "4F81BD" ++ dquote ++ "/>")) = false.
Proof.
  apply (patch_xml_no_old_color _ "4F81BD"). simpl. tauto.
Defined.

(** X3. The patch leaves a theme text as it is exactly when none of
    the ten old colour attributes occurs in it. *)
Theorem patch_xml_fixed_iff (xml : string) :
  patch_xml xml = xml
  <-> (forall old, In old (map fst color) -> contains (val_attr old) xml = false).
Proof.
  split.
  - intros E old H. rewrite <- E.
    destruct (color_rule_of old H) as (r & Hr & Er).
    rewrite val_attr_after_v, <- Er, patch_xml_rules.
    now apply color_rules_clean.
  - intro H. rewrite patch_xml_rules. apply apply_rules_absent.
    intros r Hr. unfold color_rules in Hr. apply in_map_iff in Hr.
    destruct Hr as (kv & <- & Hkv). cbn [fst].
    rewrite <- val_attr_after_v. apply H. now apply in_map.
Qed.

Lemma patch_xml_fixed_iff_witness :
  patch_xml MoreSamples.plain_theme = MoreSamples.plain_theme.
Proof.
  apply (proj2 (patch_xml_fixed_iff MoreSamples.plain_theme)).
  intros old H. simpl in H.
  repeat (destruct H as [<-|H]; [reflexivity|]). contradiction.
Defined.

End ThemeMore.

(** ** The container repair *)

Module ZipMore.

Import Zip Notions ZipFacts.



Lemma str_in_iff (n : string) (l : list string) : PyStr.str_in n l = true <-> In n l.
Proof.
  unfold PyStr.str_in. rewrite existsb_exists. split.
  - intros (x & Hx & E). apply String.eqb_eq in E. now subst.
  - intro H. exists n. split; [exact H | apply String.eqb_refl].
Qed.


Lemma filter_all {A : Type} (p : A -> bool) (l : list A) :
  (forall x, In x l -> p x = true) -> filter p l = l.
Proof.
  induction l as [|x l IH]; intro H; simpl; [reflexivity|].
  rewrite (H x) by now left. f_equal. apply IH. intros y Hy. apply H. now right.
Qed.

Lemma filter_none {A : Type} (p : A -> bool) (l : list A) :
  (forall x, In x l -> p x = false) -> filter p l = [].
Proof.
  induction l as [|x l IH]; intro H; simpl; [reflexivity|].
  rewrite (H x) by now left. apply IH. intros y Hy. apply H. now right.
Qed.




(** An entry that cannot be read ends the copy loop with its
    exception, whatever was copied before. *)
Lemma copy_entries_opens (z : archive) (names : list string) :
  forall buffer out,
    copy_entries z names buffer = Ok out ->
    forall n, In n names ->
      open n z = Raise KeyError \/ exists e, open n z = Ok e.
Proof.
  induction names as [|m names IH]; intros buffer out H n Hn; [contradiction|].
  simpl in H. destruct (open m z) as [file|x] eqn:E.
  - destruct Hn as [<-|Hn]; [right; now exists file | now apply (IH _ _ H)].
  - destruct x; try discriminate.
    destruct Hn as [<-|Hn]; [now left | now apply (IH _ _ H)].
Qed.

Lemma ordered_names_all (z : archive) (e : entry) :
  In e z ->
  In (name e)
     (FIRST_NAMES
      ++ filter (fun n => negb (PyStr.str_in n FIRST_NAMES)) (namelist z))%list.
Proof.
  intro He. apply in_or_app.
  destruct (PyStr.str_in (name e) FIRST_NAMES) eqn:S.
  - left. now apply str_in_iff.
  - right. apply filter_In. split; [now apply in_map | now rewrite S].
Qed.

(** With distinct names the repair returns only when every entry can
    be read. *)
Lemma fix_returns_readable (z out : archive) :
  NoDup (namelist z) -> fix_workbook_mime_type z = Ok out -> readable z.
Proof.
  intros Hnd H e He. unfold fix_workbook_mime_type in H.
  pose proof (copy_entries_opens _ _ _ _ H (name e) (ordered_names_all z e He)) as O.
  unfold open in O. rewrite (served z e Hnd He) in O.
  destruct (unreadable e) as [[]|]; [| | |reflexivity];
    destruct O as [O|(x & O)]; discriminate.
Qed.

(** An encrypted entry ends the repair with the exception of
    [ZipFile.open], which the loop does not catch. *)
Lemma fix_workbook_mime_type_locked :
  fix_workbook_mime_type Samples.locked_archive = Raise RuntimeError.
Proof. reflexivity. Qed.

Lemma fix_distinct (z : archive) :
  NoDup (namelist z) -> readable z ->
  fix_workbook_mime_type z = Ok (flat_map (named z) FIRST_NAMES ++ others z)%list.
Proof.
  intros Hnd Hr. unfold fix_workbook_mime_type.
  rewrite copy_entries_flat_map by exact Hr. rewrite flat_map_app, app_nil_l.
  rewrite filter_namelist, copied_sublist;
    [|exact Hnd|exact Hr|intros x Hx; apply filter_In in Hx; tauto].
  f_equal. f_equal. apply flat_map_ext. intro n. now apply copied_named.
Qed.

Lemma filter_split {A : Type} (p q : A -> bool) (l : list A) :
  (forall x, p x && q x = false) ->
  Permutation (filter (fun x => p x || q x) l) (filter p l ++ filter q l)%list.
Proof.
  intro H. induction l as [|x l IH]; simpl; [constructor|].
  specialize (H x). destruct (p x), (q x); simpl in *; try discriminate.
  - now constructor.
  - now apply Permutation_cons_app.
  - exact IH.
Qed.

Lemma filter_partition {A : Type} (p : A -> bool) (l : list A) :
  Permutation l (filter p l ++ filter (fun x => negb (p x)) l)%list.
Proof.
  induction l as [|x l IH]; simpl; [constructor|].
  destruct (p x); simpl.
  - now constructor.
  - now apply Permutation_cons_app.
Qed.

Lemma named_buckets (z : archive) (names : list string) :
  NoDup names ->
  Permutation (filter (fun e => PyStr.str_in (name e) names) z)
              (flat_map (named z) names).
Proof.
  induction names as [|n names IH]; intro Hnd.
  - simpl. rewrite filter_none; [constructor | reflexivity].
  - inversion Hnd as [|? ? Hn Hrest]; subst. simpl flat_map.
    eapply Permutation_trans.
    2:{ apply Permutation_app_head. apply IH. exact Hrest. }
    unfold named at 1.
    erewrite filter_ext.
    + apply (filter_split (fun e => String.eqb (name e) n)
                          (fun e => PyStr.str_in (name e) names)).
      intro e. destruct (String.eqb_spec (name e) n) as [E|_]; [|reflexivity].
      simpl. destruct (PyStr.str_in (name e) names) eqn:S; [|reflexivity].
      apply str_in_iff in S. rewrite E in S. contradiction.
    + intro e. unfold PyStr.str_in. simpl. now rewrite String.eqb_sym.
Qed.

Lemma first_names_distinct : NoDup FIRST_NAMES.
Proof. repeat (constructor; [simpl; intuition discriminate|]). constructor. Qed.

Lemma repaired_permutation (z : archive) :
  Permutation z (flat_map (named z) FIRST_NAMES ++ others z)%list.
Proof.
  eapply Permutation_trans;
    [apply (filter_partition (fun e => PyStr.str_in (name e) FIRST_NAMES))|].
  apply Permutation_app_tail. apply named_buckets. exact first_names_distinct.
Qed.

Lemma repaired_distinct (z : archive) :
  NoDup (namelist z) ->
  NoDup (namelist (flat_map (named z) FIRST_NAMES ++ others z)%list).
Proof.
  intro Hnd. unfold namelist in *. eapply Permutation_NoDup; [|exact Hnd].
  apply Permutation_map. apply repaired_permutation.
Qed.

(** X5. On an archive whose entry names are distinct the repair loses
    and adds nothing: the result holds the entries of the input, each
    once, in another order, and its names are distinct again. *)
Theorem fix_workbook_mime_type_permutation (z out : archive) :
  NoDup (namelist z) ->
  fix_workbook_mime_type z = Ok out ->
  Permutation z out /\ NoDup (namelist out) /\ List.length out = List.length z.
Proof.
  intros Hnd E.
  rewrite (fix_distinct z Hnd (fix_returns_readable z out Hnd E)) in E.
  injection E as <-.
  split; [apply repaired_permutation|]. split; [now apply repaired_distinct|].
  symmetry. apply Permutation_length. apply repaired_permutation.
Qed.

Lemma fix_workbook_mime_type_permutation_witness :
  Permutation Samples.sample_archive
    [ {| name := "[Content_Types].xml"; data := [Byte.x04]; unreadable := None |};
      {| name := "xl/styles.xml"; data := [Byte.x01]; unreadable := None |};
      {| name := "docProps/app.xml"; data := [Byte.x02; Byte.x03]; unreadable := None |};
      {| name := "xl/worksheets/sheet1.xml"; data := []; unreadable := None |} ]
  /\ NoDup (namelist
              [ {| name := "[Content_Types].xml"; data := [Byte.x04]; unreadable := None |};
                {| name := "xl/styles.xml"; data := [Byte.x01]; unreadable := None |};
                {| name := "docProps/app.xml"; data := [Byte.x02; Byte.x03]; unreadable := None |};
                {| name := "xl/worksheets/sheet1.xml"; data := []; unreadable := None |} ])
  /\ 4 = 4.
Proof.
  apply (fix_workbook_mime_type_permutation Samples.sample_archive).
  - repeat (constructor; [simpl; intuition discriminate|]). constructor.
  - reflexivity.
Defined.

Lemma named_app (l1 l2 : archive) (n : string) :
  named (l1 ++ l2)%list n = (named l1 n ++ named l2 n)%list.
Proof. apply filter_app. Qed.

Lemma others_app (l1 l2 : archive) :
  others (l1 ++ l2)%list = (others l1 ++ others l2)%list.
Proof. apply filter_app. Qed.

Lemma named_of_others (z : archive) (n : string) :
  In n FIRST_NAMES -> named (others z) n = [].
Proof.
  intro Hn. unfold named, others. apply filter_none.
  intros e He. apply filter_In in He. destruct He as [_ Hout].
  destruct (String.eqb_spec (name e) n) as [E|_]; [|reflexivity].
  apply negb_true_iff in Hout. rewrite E in Hout.
  apply str_in_iff in Hn. congruence.
Qed.

Lemma named_of_named (z : archive) (m n : string) :
  named (named z m) n = if String.eqb m n then named z m else [].
Proof.
  unfold named. destruct (String.eqb_spec m n) as [->|Hne].
  - apply filter_all. intros e He. apply filter_In in He. tauto.
  - apply filter_none. intros e He. apply filter_In in He. destruct He as [_ He].
    apply String.eqb_eq in He. destruct (String.eqb_spec (name e) n); congruence.
Qed.

Lemma others_of_named (z : archive) (n : string) :
  In n FIRST_NAMES -> others (named z n) = [].
Proof.
  intro Hn. unfold named, others. apply filter_none.
  intros e He. apply filter_In in He. destruct He as [_ He].
  apply String.eqb_eq in He. apply negb_false_iff, str_in_iff. now rewrite He.
Qed.

Lemma others_of_others (z : archive) : others (others z) = others z.
Proof.
  unfold others. apply filter_all. intros e He. apply filter_In in He. tauto.
Qed.

Lemma repaired_fixed (z : archive) :
  let out := (flat_map (named z) FIRST_NAMES ++ others z)%list in
  (flat_map (named out) FIRST_NAMES ++ others out)%list = out.
Proof.
  cbv zeta. unfold FIRST_NAMES. cbn [flat_map]. rewrite !app_nil_r.
  rewrite !named_app, !others_app, !named_of_named.
  rewrite !named_of_others by (simpl; tauto).
  rewrite !others_of_named by (simpl; tauto).
  rewrite others_of_others.
  cbn. rewrite !app_nil_r. reflexivity.
Qed.

(** X6. On an archive whose entry names are distinct the repair is
    idempotent: repairing its result gives that result again. *)
Theorem fix_workbook_mime_type_idempotent (z out : archive) :
  NoDup (namelist z) ->
  fix_workbook_mime_type z = Ok out ->
  fix_workbook_mime_type out = Ok out.
Proof.
  intros Hnd E.
  pose proof (fix_returns_readable z out Hnd E) as Hr.
  assert (Hout : out = (flat_map (named z) FIRST_NAMES ++ others z)%list)
    by (rewrite (fix_distinct z Hnd Hr) in E; congruence).
  subst out. rewrite (fix_distinct _ (repaired_distinct z Hnd)).
  - exact (f_equal Ok (repaired_fixed z)).
  - intros e He. apply Hr.
    eapply Permutation_in; [apply Permutation_sym, repaired_permutation | exact He].
Qed.

Lemma fix_workbook_mime_type_idempotent_witness :
  fix_workbook_mime_type
    [ {| name := "[Content_Types].xml"; data := [Byte.x04]; unreadable := None |};
      {| name := "xl/styles.xml"; data := [Byte.x01]; unreadable := None |};
      {| name := "docProps/app.xml"; data := [Byte.x02; Byte.x03]; unreadable := None |};
      {| name := "xl/worksheets/sheet1.xml"; data := []; unreadable := None |} ]
  = Ok [ {| name := "[Content_Types].xml"; data := [Byte.x04]; unreadable := None |};
         {| name := "xl/styles.xml"; data := [Byte.x01]; unreadable := None |};
         {| name := "docProps/app.xml"; data := [Byte.x02; Byte.x03]; unreadable := None |};
         {| name := "xl/worksheets/sheet1.xml"; data := []; unreadable := None |} ].
Proof.
  apply (fix_workbook_mime_type_idempotent Samples.sample_archive).
  - repeat (constructor; [simpl; intuition discriminate|]). constructor.
  - reflexivity.
Defined.

End ZipMore.

(** ** The rows, the table and the anchor of create_workbook *)

Module WorkbookMore.

Import Sheet Workbook PyDictFacts SheetFacts Notions MoreNotions WorkbookFacts.

(** X7. On an empty schema, the default of [key_title], the call
    raises IndexError whatever the records are: no cell is written and
    the row of totals has no first cell to assign. *)
Theorem create_workbook_empty_schema (data : list (str_dict pyvalue))
    (table_name : string) :
  create_workbook [] data table_name = Raise IndexError.
Proof.
  unfold create_workbook. cbv zeta. simpl PyDict.keys.
  rewrite fill_rows_no_keys. reflexivity.
Qed.

Lemma header_get (key_title : str_dict string) :
  NoDup (PyDict.keys key_title) ->
  forall j, j < List.length key_title ->
    PyDict.get String.eqb (nth j (PyDict.keys key_title) "")
      (map (fun kv => (fst kv, PyStr (snd kv))) key_title)
    = Some (PyStr (nth j (PyDict.values key_title) "")).
Proof.
  induction key_title as [|[k v] rest IH]; intros Hnd j Hj; simpl in *; [lia|].
  inversion Hnd as [|? ? Hk Hrest]; subst.
  destruct j as [|j].
  - now rewrite String.eqb_refl.
  - assert (Hin : In (nth j (PyDict.keys rest) "") (PyDict.keys rest)).
    { apply nth_In. unfold PyDict.keys. rewrite length_map. lia. }
    destruct (String.eqb_spec (nth j (PyDict.keys rest) "") k) as [E|_].
    + rewrite E in Hin. contradiction.
    + apply IH; [exact Hrest | lia].
Qed.

(** X8. Whenever [create_workbook] returns on a schema with distinct
    keys, row 1 of the sheet holds the titles and row 2+i holds record
    i, one column per key in schema order: a title is a text cell
    (format "@", type "s"); the cell of a record and a key holds the
    record's value for the key, the empty string when the record lacks
    the key, as a date cell (the ISO format, type "d") when the value
    is a datetime and as a text cell otherwise. Of a text the cell
    keeps the first 32767 characters, so a text no longer than that
    is kept whole. *)
Theorem create_workbook_rows (key_title : str_dict string)
    (data : list (str_dict pyvalue)) (table_name : string) (wb : workbook) :
  create_workbook key_title data table_name = Ok wb ->
  NoDup (PyDict.keys key_title) ->
  (forall j, j < List.length key_title ->
     cell_of 1 (1 + j) wb
     = Some {| number_format := FORMAT_TEXT;
               value := PyStr (PyStr.take MAX_TEXT (nth j (PyDict.values key_title) ""));
               data_type := "s" |})
  /\ (forall i j, i < List.length data -> j < List.length key_title ->
        cell_of (2 + i) (1 + j) wb
        = Some (data_cell (nth i data []) (nth j (PyDict.keys key_title) "")))
  /\ (forall s, (N.of_nat (String.length s) <= MAX_TEXT)%N -> kept (PyStr s) = PyStr s).
Proof.
  intros E Hnd.
  destruct (create_workbook_ok _ _ _ _ E)
    as (_ & _ & _ & tr & letter & tc1 & columns & _ & _ & _ & _ & _ & _ & _ & _ & Hcells & _).
  split; [|split; [|exact kept_short]].
  - intros j Hj. pose proof (Hcells 0 j ltac:(lia) Hj) as H0.
    change (1 + 0) with 1 in H0. rewrite H0. cbn [nth].
    unfold data_cell. now rewrite header_get.
  - intros i j Hi Hj. pose proof (Hcells (S i) j ltac:(lia) Hj) as H1.
    change (1 + S i) with (2 + i) in H1. rewrite H1. reflexivity.
Qed.

Lemma create_workbook_rows_witness :
  exists wb,
    create_workbook Samples.five_columns Samples.three_records "Table" = Ok wb
    /\ NoDup (PyDict.keys Samples.five_columns)
    /\ (forall j, j < 5 ->
          cell_of 1 (1 + j) wb
          = Some {| number_format := FORMAT_TEXT;
                    value :=
                      PyStr (PyStr.take MAX_TEXT
                               (nth j (PyDict.values Samples.five_columns) ""));
                    data_type := "s" |})
    /\ (forall i j, i < 3 -> j < 5 ->
          cell_of (2 + i) (1 + j) wb
          = Some (data_cell (nth i Samples.three_records [])
                    (nth j (PyDict.keys Samples.five_columns) "")))
    /\ (forall s, (N.of_nat (String.length s) <= MAX_TEXT)%N -> kept (PyStr s) = PyStr s).
Proof.
  assert (Hnd : NoDup (PyDict.keys Samples.five_columns)).
  { repeat (constructor; [simpl; intuition discriminate|]). constructor. }
  destruct (create_workbook Samples.five_columns Samples.three_records "Table")
    as [wb|e] eqn:E.
  - exists wb. split; [reflexivity|]. split; [exact Hnd|].
    exact (create_workbook_rows Samples.five_columns Samples.three_records
             "Table" wb E Hnd).
  - vm_compute in E. discriminate.
Defined.

(** X9. Whenever [create_workbook] returns, the table carries the name
    it is given and one column per title, numbered from 1 and named by
    the title; the first column has the totals label "Total", the last
    one the totals function "count" (a single column has both), no
    other column has either. The active cell and the selection are the
    cell of column A right below the table, row N+3. *)
Theorem create_workbook_table_columns (key_title : str_dict string)
    (data : list (str_dict pyvalue)) (table_name : string) (wb : workbook) :
  create_workbook key_title data table_name = Ok wb ->
  exists columns,
    map (fun t => (displayName t, tableColumns t)) (tables wb)
    = [(table_name, columns)]
    /\ List.length columns = List.length key_title
    /\ (forall j, j < List.length key_title ->
          nth_error columns j
          = Some {| id := 1 + j;
                    column_name := nth j (PyDict.values key_title) "";
                    totalsRowLabel :=
                      if (j =? 0)%nat then Some "Total" else None;
                    totalsRowFunction :=
                      if (j =? List.length key_title - 1)%nat
                      then Some "count" else None |})
    /\ activeCell wb = "A" ++ PyStr.of_nat (List.length data + 3)
    /\ sqref wb = activeCell wb.
Proof.
  intro E.
  destruct (create_workbook_ok _ _ _ _ E)
    as (HK & _ & _ & tr & letter & tc1 & tc2 & _ & _ & _ & E1 & E2 & ETab & _ & _ & _
        & EA & EQ).
  assert (LT : List.length (PyDict.values key_title) = List.length key_title)
    by (unfold PyDict.values; apply length_map).
  destruct (list_modify_bound _ _ _ _ E1) as (_ & L1).
  rewrite enumerate_columns_length, LT in L1.
  unfold list_modify_last in E2. destruct tc1 as [|t0 tc1'] eqn:Etc; [discriminate|].
  rewrite <- Etc in *.
  destruct (list_modify_bound _ _ _ _ E2) as (_ & L2).
  exists tc2. rewrite ETab. split; [reflexivity|]. split; [lia|].
  split; [|split; [exact EA | exact EQ]].
  intros j Hj.
  rewrite (list_modify_nth_error _ _ _ _ E2 j), L1.
  rewrite (list_modify_nth_error _ _ _ _ E1 j).
  rewrite enumerate_columns_nth_error by lia.
  destruct (j =? 0)%nat, (j =? List.length key_title - 1)%nat; reflexivity.
Qed.

Lemma create_workbook_table_columns_witness :
  exists wb columns,
    create_workbook Samples.five_columns Samples.three_records "Table" = Ok wb
    /\ map (fun t => (displayName t, tableColumns t)) (tables wb)
       = [("Table", columns)]
    /\ List.length columns = 5
    /\ (forall j, j < 5 ->
          nth_error columns j
          = Some {| id := 1 + j;
                    column_name := nth j (PyDict.values Samples.five_columns) "";
                    totalsRowLabel := if (j =? 0)%nat then Some "Total" else None;
                    totalsRowFunction :=
                      if (j =? 5 - 1)%nat then Some "count" else None |})
    /\ activeCell wb = "A" ++ PyStr.of_nat (3 + 3)
    /\ sqref wb = activeCell wb.
Proof.
  destruct (create_workbook Samples.five_columns Samples.three_records "Table")
    as [wb|e] eqn:E.
  - destruct (create_workbook_table_columns Samples.five_columns
                Samples.three_records "Table" wb E) as (columns & H).
    exists wb, columns. split; [reflexivity | exact H].
  - vm_compute in E. discriminate.
Defined.

End WorkbookMore.

(** ** The values of the records *)

Module ExtractMore.

Import Html TaxSaleStates PyDictFacts Notions MoreNotions ExtractFacts.

(** *** Trimmed strings *)

Section Strip.
Variable p : ascii -> bool.

Lemma rstrip_by_idempotent (s : string) :
  PyStr.rstrip_by p (PyStr.rstrip_by p s) = PyStr.rstrip_by p s.
Proof.
  induction s as [|c s IH]; [reflexivity|].
  cbn [PyStr.rstrip_by]. destruct (PyStr.rstrip_by p s) as [|k kept] eqn:E.
  - destruct (p c) eqn:Pc; [reflexivity|]. simpl. now rewrite Pc.
  - change (PyStr.rstrip_by p (String c (String k kept)))
      with (match PyStr.rstrip_by p (String k kept) with
            | EmptyString => if p c then EmptyString else String c EmptyString
            | kept' => String c kept'
            end).
    now rewrite IH.
Qed.

Lemma rstrip_by_tail (c : ascii) (t : string) :
  PyStr.rstrip_by p (String c t) = String c t -> PyStr.rstrip_by p t = t.
Proof.
  cbn [PyStr.rstrip_by]. destruct (PyStr.rstrip_by p t) as [|k kept] eqn:E.
  - destruct (p c); intro H; [discriminate|]. now injection H as <-.
  - intro H. now injection H as <-.
Qed.

Lemma rstrip_by_drop (n : nat) (t : string) :
  PyStr.rstrip_by p t = t -> PyStr.rstrip_by p (PyStr.drop n t) = PyStr.drop n t.
Proof.
  revert t. induction n as [|n IH]; intros t H; [exact H|].
  destruct t as [|c t]; [reflexivity|].
  cbn [PyStr.drop]. apply IH. now apply (rstrip_by_tail c).
Qed.

Lemma rstrip_by_lstrip_by (t : string) :
  PyStr.rstrip_by p t = t ->
  PyStr.rstrip_by p (PyStr.lstrip_by p t) = PyStr.lstrip_by p t.
Proof.
  induction t as [|c t IH]; intro H; [reflexivity|].
  cbn [PyStr.lstrip_by]. destruct (p c); [|exact H].
  apply IH. now apply (rstrip_by_tail c).
Qed.

Lemma lstrip_by_idempotent (s : string) :
  PyStr.lstrip_by p (PyStr.lstrip_by p s) = PyStr.lstrip_by p s.
Proof.
  induction s as [|c s IH]; [reflexivity|].
  cbn [PyStr.lstrip_by]. destruct (p c) eqn:Pc; [exact IH|].
  cbn [PyStr.lstrip_by]. now rewrite Pc.
Qed.

End Strip.

Lemma strip_rstrip (s : string) : PyStr.rstrip (PyStr.strip s) = PyStr.strip s.
Proof.
  unfold PyStr.strip, PyStr.lstrip, PyStr.rstrip.
  apply rstrip_by_lstrip_by, rstrip_by_idempotent.
Qed.

Lemma strip_idempotent (s : string) : PyStr.strip (PyStr.strip s) = PyStr.strip s.
Proof.
  unfold PyStr.strip at 1. rewrite strip_rstrip.
  unfold PyStr.strip, PyStr.lstrip. apply lstrip_by_idempotent.
Qed.

Lemma description_trimmed (notes : node) :
  PyStr.strip (description_of notes) = description_of notes.
Proof.
  unfold description_of.
  set (s := PyStr.strip (get_text notes)).
  assert (H : PyStr.rstrip (PyStr.removeprefix "NOTES:" s)
              = PyStr.removeprefix "NOTES:" s).
  { unfold PyStr.removeprefix. destruct (prefix "NOTES:" s).
    - apply rstrip_by_drop. apply strip_rstrip.
    - apply strip_rstrip. }
  unfold PyStr.strip at 1.
  unfold PyStr.rstrip, PyStr.lstrip in *.
  rewrite rstrip_by_lstrip_by by exact H.
  apply lstrip_by_idempotent.
Qed.

(** *** Lookups *)

Lemma NoDup_first_seen_from (seen l : list string) :
  NoDup seen -> NoDup (first_seen_from seen l).
Proof.
  unfold first_seen_from. revert seen.
  induction l as [|x l IH]; intros seen H; simpl; [exact H|].
  apply IH. destruct (PyStr.str_in x seen) eqn:E; [exact H|].
  apply NoDup_app; [exact H | repeat constructor; simpl; tauto |].
  intros a Ha [<-|[]]. apply str_in_In in Ha. congruence.
Qed.

Lemma get_None_not_In {V : Type} (k : string) (d : str_dict V) :
  ~ In k (PyDict.keys d) -> PyDict.get String.eqb k d = None.
Proof.
  intro H. destruct (PyDict.get String.eqb k d) eqn:E; [|reflexivity].
  exfalso. apply H. apply (get_Some_In String.eqb string_eqb_spec). congruence.
Qed.

Lemma get_update_distinct {V : Type} (k : string) (e : str_dict V) :
  NoDup (PyDict.keys e) ->
  forall d,
    PyDict.get String.eqb k (PyDict.update String.eqb d e)
    = match PyDict.get String.eqb k e with
      | Some v => Some v
      | None => PyDict.get String.eqb k d
      end.
Proof.
  unfold PyDict.update.
  induction e as [|[k' v'] e IH]; intros Hnd d; simpl; [reflexivity|].
  simpl in Hnd. inversion Hnd as [|? ? Hk Hrest]; subst.
  rewrite IH by exact Hrest.
  destruct (String.eqb_spec k k') as [->|Hne].
  - rewrite get_None_not_In by exact Hk.
    apply (get_set_same String.eqb string_eqb_spec).
  - destruct (PyDict.get String.eqb k e); [reflexivity|].
    now apply (get_set_other String.eqb string_eqb_spec).
Qed.

Lemma get_update_In {V : Type} (k : string) (v : V) (e : str_dict V) :
  forall d,
    PyDict.get String.eqb k (PyDict.update String.eqb d e) = Some v ->
    In (k, v) e \/ PyDict.get String.eqb k d = Some v.
Proof.
  unfold PyDict.update.
  induction e as [|[k' v'] e IH]; intros d H; simpl in *; [now right|].
  apply IH in H. destruct H as [H|H]; [left; now right|].
  destruct (String.eqb_spec k k') as [->|Hne].
  - rewrite (get_set_same String.eqb string_eqb_spec) in H.
    injection H as ->. left. now left.
  - rewrite (get_set_other String.eqb string_eqb_spec) in H by exact Hne.
    now right.
Qed.

Section Model.
Variable key_title : str_dict string.

Lemma parse_table_keys_distinct (table : node) :
  NoDup (PyDict.keys (parse_table key_title table)).
Proof.
  rewrite parse_table_refines. unfold TableSpec.spec_parse_table.
  rewrite keys_update_first_seen. apply NoDup_first_seen_from. constructor.
Qed.

Lemma parse_table_values_trimmed (table : node) (k v : string) :
  PyDict.get String.eqb k (parse_table key_title table) = Some v ->
  PyStr.strip v = v.
Proof.
  rewrite parse_table_refines. unfold TableSpec.spec_parse_table. intro H.
  apply get_update_In in H. destruct H as [H|H]; [|discriminate].
  unfold TableSpec.table_entries in H. apply in_flat_map in H.
  destruct H as (row & _ & H). unfold TableSpec.row_entry in H.
  destruct (TableSpec.row_cells row) as [[c1 c2]|]; [|contradiction].
  destruct ((TableSpec.raw_key c1 =? "") && (TableSpec.cell_value c2 =? ""));
    [contradiction|].
  destruct H as [[= _ <-]|[]]. apply strip_idempotent.
Qed.

Lemma add_missing_keys_get_from (ts : list string) (k : string) :
  forall row : record,
    PyDict.get String.eqb k
      (fold_left
         (fun row title =>
            if negb (PyDict.mem String.eqb title row)
            then PyDict.set String.eqb title "" row
            else row) ts row)
    = match PyDict.get String.eqb k row with
      | Some v => Some v
      | None => if PyStr.str_in k ts then Some "" else None
      end.
Proof.
  induction ts as [|t ts IH]; intro row; simpl.
  - now destruct (PyDict.get String.eqb k row).
  - rewrite IH. unfold PyDict.mem.
    destruct (String.eqb_spec k t) as [->|Hne].
    + destruct (PyDict.get String.eqb t row) as [v|] eqn:E; simpl.
      * now rewrite E.
      * now rewrite (get_set_same String.eqb string_eqb_spec).
    + destruct (PyDict.get String.eqb t row) as [v|] eqn:E; simpl.
      * reflexivity.
      * now rewrite (get_set_other String.eqb string_eqb_spec).
Qed.

Lemma add_missing_keys_fixed_from (ts : list string) (row : record) :
  (forall t, In t ts -> PyDict.mem String.eqb t row = true) ->
  fold_left
    (fun row title =>
       if negb (PyDict.mem String.eqb title row)
       then PyDict.set String.eqb title "" row
       else row) ts row
  = row.
Proof.
  induction ts as [|t ts IH]; intro H; simpl; [reflexivity|].
  rewrite (H t) by now left. simpl. apply IH. intros t' Ht'. apply H. now right.
Qed.

(** X10. [add_missing_keys] never changes the value of a key the row
    has; a schema title the row lacks gets the empty string; no other
    key is added. A second application changes nothing. *)
Theorem add_missing_keys_lookup (row : record) :
  (forall k,
     PyDict.get String.eqb k (add_missing_keys key_title row)
     = match PyDict.get String.eqb k row with
       | Some v => Some v
       | None => if PyStr.str_in k (titles key_title) then Some "" else None
       end)
  /\ add_missing_keys key_title (add_missing_keys key_title row)
     = add_missing_keys key_title row.
Proof.
  split.
  - intro k. apply add_missing_keys_get_from.
  - apply add_missing_keys_fixed_from. intros t Ht.
    apply (mem_In String.eqb string_eqb_spec).
    rewrite add_missing_keys_keys. apply In_first_seen_from. now right.
Qed.

(** The value a record of [parse] has under a key. *)
Lemma item_of_get (h t n : node) (k : string) :
  PyDict.get String.eqb k (item_of key_title h t n)
  = if String.eqb k "Description" then Some (description_of n)
    else match PyDict.get String.eqb k (parse_table key_title t) with
         | Some v => Some v
         | None =>
             if String.eqb k "State" then Some (PyStr.strip (get_text h))
             else if PyStr.str_in k (titles key_title) then Some "" else None
         end.
Proof.
  unfold item_of, add_missing_keys. rewrite add_missing_keys_get_from.
  unfold item_display.
  destruct (String.eqb_spec k "Description") as [->|Hd].
  - now rewrite (get_set_same String.eqb string_eqb_spec).
  - rewrite (get_set_other String.eqb string_eqb_spec) by exact Hd.
    rewrite get_update_distinct by apply parse_table_keys_distinct.
    destruct (PyDict.get String.eqb k (parse_table key_title t)); [reflexivity|].
    destruct (String.eqb_spec k "State") as [->|Hs].
    + now rewrite (get_set_same String.eqb string_eqb_spec).
    + rewrite (get_set_other String.eqb string_eqb_spec) by exact Hs.
      reflexivity.
Qed.

End Model.

Lemma zip_longest_pairs_notes (l : list node) :
  forall j t n, nth_error (zip_longest_pairs l) j = Some (t, Some n) ->
    nth_error l (2 * j + 1) = Some n.
Proof.
  assert (G : forall m l, List.length l <= m ->
            forall j t n, nth_error (zip_longest_pairs l) j = Some (t, Some n) ->
              nth_error l (2 * j + 1) = Some n).
  { clear l. induction m as [|m IH]; intros l Hl j t n H.
    - destruct l; [destruct j; discriminate | simpl in Hl; lia].
    - destruct l as [|a [|b l]].
      + destruct j; discriminate.
      + destruct j as [|[|j]]; simpl in H; discriminate.
      + cbn [zip_longest_pairs] in H. destruct j as [|j]; simpl in H.
        * now injection H as _ <-.
        * replace (2 * S j + 1) with (S (S (2 * j + 1))) by lia.
          simpl. apply (IH l ltac:(simpl in Hl; lia) j t n H). }
  apply (G (List.length l)). lia.
Qed.

Section Records.
Variable key_title : str_dict string.

(** The heading, the table and the notes a record of [parse] is made of. *)
Lemma parse_sources (doc : soup) (items : list record) :
  parse key_title doc = Ok items ->
  forall j r, nth_error items j = Some r ->
    exists h t n,
      nth_error (state_headings doc) j = Some h
      /\ nth_error (table_notes doc) (2 * j) = Some t
      /\ nth_error (table_notes doc) (2 * j + 1) = Some n
      /\ r = item_of key_title h t n.
Proof.
  unfold parse. intros H j r Hj.
  apply parse_loop_ok in H; [|lia].
  destruct H as (_ & _ & new & E & _ & Hnth). simpl in E. subst new.
  destruct (Hnth j r Hj) as (h & t & n & Hh & Hp & ->).
  exists h, t, n. repeat split; auto.
  - destruct (zip_longest_pairs_facts (table_notes doc)) as (_ & _ & Hz).
    now apply (Hz j t (Some n)).
  - now apply (zip_longest_pairs_notes (table_notes doc) j t n).
Qed.

(** X11. What the j-th record of [parse] holds. "Description" is the
    text of the notes node 2j+1, trimmed, without one leading "NOTES:"
    and the whitespace after it, also when the table has a
    Description row. "State" is the value of the table's State row
    when the table (node 2j) has one, and the trimmed heading j
    otherwise. Any other key holds the value of the table's row of
    that title, or the empty string when it is a schema title without
    a row; the record has no further key. *)
Theorem parse_record_values (doc : soup) (items : list record) :
  parse key_title doc = Ok items ->
  forall j r, nth_error items j = Some r ->
    exists h t n,
      nth_error (state_headings doc) j = Some h
      /\ nth_error (table_notes doc) (2 * j) = Some t
      /\ nth_error (table_notes doc) (2 * j + 1) = Some n
      /\ PyDict.get String.eqb "Description" r = Some (description_of n)
      /\ PyDict.get String.eqb "State" r
         = Some (match PyDict.get String.eqb "State" (parse_table key_title t) with
                 | Some v => v
                 | None => PyStr.strip (get_text h)
                 end)
      /\ (forall k, k <> "State" -> k <> "Description" ->
            PyDict.get String.eqb k r
            = match PyDict.get String.eqb k (parse_table key_title t) with
              | Some v => Some v
              | None => if PyStr.str_in k (titles key_title) then Some "" else None
              end).
Proof.
  intros H j r Hj.
  destruct (parse_sources doc items H j r Hj) as (h & t & n & Hh & Ht & Hn & ->).
  exists h, t, n. split; [exact Hh|]. split; [exact Ht|]. split; [exact Hn|].
  split; [|split].
  - rewrite item_of_get. reflexivity.
  - rewrite item_of_get. cbn [String.eqb Ascii.eqb Bool.eqb].
    now destruct (PyDict.get String.eqb "State" (parse_table key_title t)).
  - intros k Hs Hd. rewrite item_of_get.
    destruct (String.eqb_spec k "Description") as [E|_]; [contradiction|].
    destruct (String.eqb_spec k "State") as [E|_]; [contradiction|].
    reflexivity.
Qed.

(** X12. Every value of every record of [parse] is trimmed: it has no
    whitespace at either end. *)
Theorem parse_values_trimmed (doc : soup) (items : list record) :
  parse key_title doc = Ok items ->
  forall r k v, In r items -> PyDict.get String.eqb k r = Some v ->
    PyStr.strip v = v.
Proof.
  intros H r k v Hr Hv. apply In_nth_error in Hr. destruct Hr as (j & Hj).
  destruct (parse_sources doc items H j r Hj) as (h & t & n & _ & _ & _ & ->).
  rewrite item_of_get in Hv.
  destruct (String.eqb k "Description").
  - injection Hv as <-. apply description_trimmed.
  - destruct (PyDict.get String.eqb k (parse_table key_title t)) as [v'|] eqn:E.
    + injection Hv as <-. now apply (parse_table_values_trimmed key_title t k).
    + destruct (String.eqb k "State").
      * injection Hv as <-. apply strip_idempotent.
      * destruct (PyStr.str_in k (titles key_title)); [|discriminate].
        injection Hv as <-. reflexivity.
Qed.

End Records.

Lemma parse_record_values_witness :
  exists h t n,
    nth_error (state_headings Samples.two_headings_one_pair) 0 = Some h
    /\ nth_error (table_notes Samples.two_headings_one_pair) (2 * 0) = Some t
    /\ nth_error (table_notes Samples.two_headings_one_pair) (2 * 0 + 1) = Some n
    /\ PyDict.get String.eqb "Description" Samples.alabama_record
       = Some (description_of n)
    /\ PyDict.get String.eqb "State" Samples.alabama_record
       = Some (match PyDict.get String.eqb "State" (parse_table KEY_TITLE t) with
               | Some v => v
               | None => PyStr.strip (get_text h)
               end)
    /\ (forall k, k <> "State" -> k <> "Description" ->
          PyDict.get String.eqb k Samples.alabama_record
          = match PyDict.get String.eqb k (parse_table KEY_TITLE t) with
            | Some v => Some v
            | None => if PyStr.str_in k (titles KEY_TITLE) then Some "" else None
            end).
Proof.
  apply (parse_record_values KEY_TITLE Samples.two_headings_one_pair
           [Samples.alabama_record] eq_refl 0 Samples.alabama_record eq_refl).
Defined.

Lemma parse_values_trimmed_witness :
  PyStr.strip "Sales in May." = "Sales in May.".
Proof.
  apply (parse_values_trimmed KEY_TITLE Samples.two_headings_one_pair
           [Samples.alabama_record] eq_refl Samples.alabama_record
           "Description" "Sales in May.").
  - now left.
  - reflexivity.
Defined.

End ExtractMore.

(** ** CSV export *)

Module CsvMore.

Import Html TaxSaleStates PyDictFacts Notions MoreNotions ExtractFacts ExtractMore Csv.

Lemma existsb_false {A : Type} (f : A -> bool) (l : list A) :
  existsb f l = false -> forall x, In x l -> f x = false.
Proof.
  induction l as [|y l IH]; intros H x Hx; [contradiction|].
  simpl in H. apply orb_false_iff in H. destruct H as [Hy Hl].
  destruct Hx as [<-|Hx]; [exact Hy | now apply IH].
Qed.

Lemma keys_within_or_not (fieldnames : list string) (rowdict : record) :
  incl (PyDict.keys rowdict) fieldnames \/ ~ incl (PyDict.keys rowdict) fieldnames.
Proof.
  destruct (existsb (fun k => negb (PyStr.str_in k fieldnames))
              (PyDict.keys rowdict)) eqn:E.
  - right. intro Hin. apply existsb_exists in E. destruct E as (k & Hk & Hout).
    apply negb_true_iff in Hout. apply Hin in Hk. apply str_in_In in Hk. congruence.
  - left. intros k Hk. pose proof (existsb_false _ _ E k Hk) as F.
    apply negb_false_iff in F. now apply str_in_In.
Qed.

Lemma dict_to_list_ok (fieldnames : list string) (rowdict : record) :
  incl (PyDict.keys rowdict) fieldnames ->
  dict_to_list fieldnames rowdict = Ok (csv_row fieldnames rowdict).
Proof.
  intro H. unfold dict_to_list.
  destruct (existsb _ (PyDict.keys rowdict)) eqn:E; [|reflexivity].
  apply existsb_exists in E. destruct E as (k & Hk & Hout).
  apply negb_true_iff in Hout. apply H in Hk. apply str_in_In in Hk. congruence.
Qed.

Lemma dict_to_list_raises (fieldnames : list string) (rowdict : record) :
  ~ incl (PyDict.keys rowdict) fieldnames ->
  dict_to_list fieldnames rowdict = Raise ValueError.
Proof.
  intro H. unfold dict_to_list.
  destruct (existsb _ (PyDict.keys rowdict)) eqn:E; [reflexivity|].
  exfalso. apply H. intros k Hk.
  pose proof (existsb_false _ _ E k Hk) as F.
  apply negb_false_iff in F. now apply str_in_In.
Qed.

Lemma header_dict_get_from (l : list string) :
  forall d : record,
    (forall k v, PyDict.get String.eqb k d = Some v -> v = k) ->
    forall k v,
      PyDict.get String.eqb k
        (fold_left (fun d k => PyDict.set String.eqb k k d) l d) = Some v ->
      v = k.
Proof.
  induction l as [|x l IH]; intros d Hd k v H; simpl in H; [now apply Hd|].
  apply IH in H; [exact H|]. intros k' v' H'.
  destruct (String.eqb_spec k' x) as [->|Hne].
  - rewrite (get_set_same String.eqb string_eqb_spec) in H'. congruence.
  - rewrite (get_set_other String.eqb string_eqb_spec) in H' by exact Hne.
    now apply Hd.
Qed.

Lemma header_dict_keys_from (l : list string) :
  forall d : record,
    PyDict.keys (fold_left (fun d k => PyDict.set String.eqb k k d) l d)
    = first_seen_from (PyDict.keys d) l.
Proof.
  induction l as [|x l IH]; intro d; simpl; [reflexivity|].
  rewrite IH, keys_set_first_seen. reflexivity.
Qed.

Lemma header_row (fieldnames : list string) :
  dict_to_list fieldnames (header_dict fieldnames) = Ok fieldnames.
Proof.
  rewrite dict_to_list_ok.
  - f_equal. unfold csv_row. rewrite <- (map_id fieldnames) at 2.
    apply map_ext_in. intros k Hk.
    destruct (PyDict.get String.eqb k (header_dict fieldnames)) as [v|] eqn:E.
    + apply (header_dict_get_from fieldnames [] ) in E; [exact E|].
      intros k' v' H'. discriminate.
    + exfalso.
      assert (Hin : In k (PyDict.keys (header_dict fieldnames))).
      { unfold header_dict. rewrite header_dict_keys_from.
        apply In_first_seen_from. now right. }
      apply (get_Some_In String.eqb string_eqb_spec) in Hin. congruence.
  - intros k Hk. unfold header_dict in Hk. rewrite header_dict_keys_from in Hk.
    apply In_first_seen_from in Hk. destruct Hk as [[]|Hk]. exact Hk.
Qed.

Lemma writerows_ok (fieldnames : list string) (data : list record) :
  forall written,
    (forall r, In r data -> incl (PyDict.keys r) fieldnames) ->
    writerows fieldnames data written
    = ((written ++ map (csv_row fieldnames) data)%list, Ok tt).
Proof.
  induction data as [|r data IH]; intros written H; simpl.
  - now rewrite app_nil_r.
  - rewrite dict_to_list_ok by (apply H; now left).
    rewrite IH by (intros r' Hr'; apply H; now right).
    now rewrite <- app_assoc.
Qed.

Lemma writerows_raises (fieldnames : list string) (before after : list record)
    (bad : record) :
  forall written,
    (forall r, In r before -> incl (PyDict.keys r) fieldnames) ->
    ~ incl (PyDict.keys bad) fieldnames ->
    writerows fieldnames (before ++ bad :: after)%list written
    = ((written ++ map (csv_row fieldnames) before)%list, Raise ValueError).
Proof.
  induction before as [|r before IH]; intros written H Hbad; simpl.
  - rewrite dict_to_list_raises by exact Hbad. now rewrite app_nil_r.
  - rewrite dict_to_list_ok by (apply H; now left).
    rewrite IH; [|intros r' Hr'; apply H; now right | exact Hbad].
    now rewrite <- app_assoc.
Qed.

Lemma writerows_ends (fieldnames : list string) (data : list record) :
  forall written,
    snd (writerows fieldnames data written) = Ok tt
    \/ snd (writerows fieldnames data written) = Raise ValueError.
Proof.
  induction data as [|r data IH]; intro written; simpl; [now left|].
  destruct (keys_within_or_not fieldnames r) as [Hok|Hbad].
  - rewrite dict_to_list_ok by exact Hok. apply IH.
  - rewrite dict_to_list_raises by exact Hbad. now right.
Qed.

Section CsvClaims.
Variable key_title : str_dict string.

(** X13. When every record has only schema titles as keys, the CSV
    export hands the writer the titles as header row and then one row
    per record, in order; each row has one field per title, in schema
    order whatever the order of the record's keys, with the empty
    string for a title the record lacks; the call returns. *)
Theorem write_csv_rows (data : list record) :
  (forall r, In r data -> incl (PyDict.keys r) (titles key_title)) ->
  write_csv key_title data
  = (titles key_title :: map (csv_row (titles key_title)) data, Ok tt)
  /\ Forall (fun row => List.length row = List.length (titles key_title))
       (fst (write_csv key_title data)).
Proof.
  intro H.
  assert (E : write_csv key_title data
              = (titles key_title :: map (csv_row (titles key_title)) data, Ok tt)).
  { unfold write_csv. cbv zeta. rewrite header_row. now rewrite writerows_ok. }
  split; [exact E|]. rewrite E. cbn [fst]. constructor; [reflexivity|].
  apply Forall_forall. intros row Hrow. apply in_map_iff in Hrow.
  destruct Hrow as (r & <- & _). unfold csv_row. apply length_map.
Qed.

(** X14. A record with a key that is no schema title stops the CSV
    export with ValueError: the header and the rows of the records
    before the first such record have been handed to the writer, no
    row of that record or of a later one has. *)
Theorem write_csv_raises (before after : list record) (bad : record) :
  (forall r, In r before -> incl (PyDict.keys r) (titles key_title)) ->
  ~ incl (PyDict.keys bad) (titles key_title) ->
  write_csv key_title (before ++ bad :: after)%list
  = (titles key_title :: map (csv_row (titles key_title)) before, Raise ValueError).
Proof.
  intros H Hbad. unfold write_csv. cbv zeta. rewrite header_row.
  now rewrite writerows_raises.
Qed.

Lemma write_csv_returns_iff (data : list record) :
  snd (write_csv key_title data) = Ok tt
  <-> (forall r, In r data -> incl (PyDict.keys r) (titles key_title)).
Proof.
  unfold write_csv. cbv zeta. rewrite header_row.
  generalize [titles key_title] as written.
  induction data as [|r data IH]; intro written; simpl.
  - split; [intros _ r [] | reflexivity].
  - destruct (keys_within_or_not (titles key_title) r) as [Hok|Hbad].
    + rewrite dict_to_list_ok by exact Hok. rewrite IH. split.
      * intros H r' [<-|Hr']; auto.
      * intros H r' Hr'. apply H. now right.
    + rewrite dict_to_list_raises by exact Hbad. simpl. split; [discriminate|].
      intro H. exfalso. apply Hbad. apply H. now left.
Qed.

Lemma item_of_keys_incl (h t n : node) :
  In "State" (titles key_title) -> In "Description" (titles key_title) ->
  (incl (PyDict.keys (item_of key_title h t n)) (titles key_title)
   <-> incl (PyDict.keys (parse_table key_title t)) (titles key_title)).
Proof.
  intros HS HD. unfold item_of. rewrite item_keys.
  assert (M : forall k,
             In k (first_seen
                     ("State" :: PyDict.keys (parse_table key_title t)
                      ++ ["Description"] ++ titles key_title))
             <-> k = "State" \/ In k (PyDict.keys (parse_table key_title t))
                 \/ k = "Description" \/ In k (titles key_title)).
  { intro k. unfold first_seen. rewrite In_first_seen_from. simpl.
    rewrite !in_app_iff. simpl. intuition (subst; auto). }
  split.
  - intros H k Hk. apply H, M. tauto.
  - intros H k Hk. apply M in Hk.
    destruct Hk as [->|[Hk|[->|Hk]]]; auto.
Qed.

(** X15. Extraction followed by the CSV export, for a schema that has
    the titles "State" and "Description": the export returns exactly
    when every table (the content nodes at even positions) has only
    labels that lead to schema titles; one label outside the schema
    makes it raise ValueError. *)
Theorem parse_then_write_csv (doc : soup) (items : list record) :
  parse key_title doc = Ok items ->
  In "State" (titles key_title) -> In "Description" (titles key_title) ->
  (snd (write_csv key_title items) = Ok tt
   <-> (forall j t, nth_error (table_notes doc) (2 * j) = Some t ->
          incl (PyDict.keys (parse_table key_title t)) (titles key_title)))
  /\ (snd (write_csv key_title items) = Ok tt
      \/ snd (write_csv key_title items) = Raise ValueError).
Proof.
  intros H HS HD. split.
  - rewrite write_csv_returns_iff. split.
    + intros Hall j t Ht.
      destruct (parse_items key_title doc items H) as (HT & _ & _).
      assert (Hj : j < List.length items).
      { assert (2 * j < List.length (table_notes doc))
          by (apply nth_error_Some; congruence). lia. }
      destruct (nth_error items j) as [r|] eqn:Er.
      2:{ apply nth_error_None in Er. lia. }
      destruct (parse_sources key_title doc items H j r Er)
        as (h & t' & n & _ & Ht' & _ & ->).
      rewrite Ht in Ht'. injection Ht' as <-.
      apply (item_of_keys_incl h t n HS HD). apply Hall.
      now apply (nth_error_In items j).
    + intros Hall r Hr. apply In_nth_error in Hr. destruct Hr as (j & Hj).
      destruct (parse_sources key_title doc items H j r Hj)
        as (h & t & n & _ & Ht & _ & ->).
      apply (item_of_keys_incl h t n HS HD). now apply (Hall j).
  - unfold write_csv. cbv zeta. rewrite header_row. apply writerows_ends.
Qed.

End CsvClaims.

Lemma write_csv_rows_witness :
  write_csv KEY_TITLE [ [("Type", "Lien"); ("State", "Alabama")] ]
  = (titles KEY_TITLE
     :: map (csv_row (titles KEY_TITLE)) [ [("Type", "Lien"); ("State", "Alabama")] ],
     Ok tt)
  /\ Forall (fun row => List.length row = List.length (titles KEY_TITLE))
       (fst (write_csv KEY_TITLE [ [("Type", "Lien"); ("State", "Alabama")] ])).
Proof.
  apply (write_csv_rows KEY_TITLE).
  intros r [<-|[]] k Hk. simpl in Hk. simpl. intuition.
Defined.

Lemma write_csv_raises_witness :
  write_csv KEY_TITLE MoreSamples.csv_records
  = (titles KEY_TITLE
     :: map (csv_row (titles KEY_TITLE)) [ [("State", "Alabama"); ("Type", "Lien")] ],
     Raise ValueError).
Proof.
  apply (write_csv_raises KEY_TITLE
           [ [("State", "Alabama"); ("Type", "Lien")] ]
           [ [("State", "Arizona")] ]
           [("State", "Alaska"); ("County fee", "5")]).
  - intros r [<-|[]] k Hk. simpl in Hk. simpl. intuition.
  - intro H. assert (Hin : In "County fee" (titles KEY_TITLE))
      by (apply H; simpl; tauto).
    simpl in Hin. intuition discriminate.
Defined.

Lemma parse_then_write_csv_witness :
  (snd (write_csv KEY_TITLE [Samples.alabama_record]) = Ok tt
   <-> (forall j t, nth_error (table_notes Samples.two_headings_one_pair) (2 * j) = Some t ->
          incl (PyDict.keys (parse_table KEY_TITLE t)) (titles KEY_TITLE)))
  /\ (snd (write_csv KEY_TITLE [Samples.alabama_record]) = Ok tt
      \/ snd (write_csv KEY_TITLE [Samples.alabama_record]) = Raise ValueError).
Proof.
  apply (parse_then_write_csv KEY_TITLE Samples.two_headings_one_pair
           [Samples.alabama_record] eq_refl).
  - simpl. tauto.
  - simpl. tauto.
Defined.

End CsvMore.

(** ** Extraction into the workbook *)

Module ControllerMore.

Import Html TaxSaleStates Sheet PyDictFacts SheetFacts Notions MoreNotions.
Import ExtractFacts ExtractMore CsvMore WorkbookFacts WorkbookMore.








End ControllerMore.
